(** * Efinix platform back-end (amaranth/vendor/_efinix.py)

    A shallow embedding of the attribute classifier, the direction mapper,
    the GPIO constraint enumerator, the constraint-file templates, the
    environment wrapper script and the clock-domain fallback, followed by
    the properties they satisfy.

    Python dictionaries are finite maps ([gmap string _]); the generator
    [iter_gpio_constraints] is the list of the tuples it yields; values that
    raise are results in a sum type. *)

From Stdlib Require Import QArith Qcanon.
From stdpp Require Import gmap strings list fin_maps pretty.

Close Scope Q_scope.
Close Scope Qc_scope.
Open Scope string_scope.
Open Scope list_scope.

(** ** Static attribute tables (lines 17-37) *)

Definition PIN_ATTRS : list string :=
  ["io_standard"].

Definition INPUT_ATTRS : list string :=
  ["conn_type"; "is_register"; "clock_name"; "is_clock_inverted";
   "pull_option"; "is_schmitt_trigger"; "ddio_type"].

Definition OUTPUT_ATTRS : list string :=
  ["is_clock_inverted"; "is_slew_rate"; "clock_name"; "tied_option";
   "ddio_type"; "drive_strength"].

Definition OE_ATTRS : list string :=
  [].

(** ** Resources

    Only what this file reads of a resource: the truth value of [res.clock],
    and of [res.ios[0]] its [dir] and whether it is a [DiffPairs]. The field
    [res_name] stands for the identity of the resource, which the pin-name
    resolution of the platform depends on. *)

Record Resource := {
  res_name : string;
  clock : bool;
  ios0_dir : string;
  ios0_is_DiffPairs : bool
}.

(** An attribute mapping: attribute name to the attribute's text. *)
Abbreviation Attrs := (gmap string string).

(** The four dictionaries [_generate_efinix_attrs] returns, in the order of
    its [return] statement. *)
Record Buckets := {
  b_pin : Attrs;
  b_in : Attrs;
  b_out : Attrs;
  b_oe : Attrs
}.

(** [if attr in TABLE: d[attr] = value] *)
Definition put_if_listed (TABLE : list string) (attr value : string) (d : Attrs) : Attrs :=
  if decide (attr ∈ TABLE) then <[attr := value]> d else d.

(** Body of the loop [for attr, value in attrs.items()]. *)
Definition place_attr (attr value : string) (b : Buckets) : Buckets :=
  {| b_pin := put_if_listed PIN_ATTRS attr value (b_pin b);
     b_in := put_if_listed INPUT_ATTRS attr value (b_in b);
     b_out := put_if_listed OUTPUT_ATTRS attr value (b_out b);
     b_oe := put_if_listed OE_ATTRS attr value (b_oe b) |}.

Definition no_attrs : Buckets :=
  {| b_pin := ∅; b_in := ∅; b_out := ∅; b_oe := ∅ |}.

(** [if not 'conn_type' in in_attrs: ...] *)
Definition default_conn_type (res : Resource) (in_attrs : Attrs) : Attrs :=
  match in_attrs !! "conn_type" with
  | Some _ => in_attrs
  | None =>
      if clock res then <["conn_type" := "gclk"]> in_attrs
      else <["conn_type" := "normal"]> in_attrs
  end.

Definition _generate_efinix_attrs (res : Resource) (attrs : Attrs) : Buckets :=
  let b := map_fold place_attr no_attrs attrs in
  {| b_pin := b_pin b;
     b_in := default_conn_type res (b_in b);
     b_out := b_out b;
     b_oe := b_oe b |}.


(** ** Direction mapper (lines 301-312) *)

Definition _direction_from_resource (res : Resource) : string :=
  let dir := ios0_dir res in
  if decide (dir ∈ ["oe"; "io"]) then "inout"
  else if decide (dir = "o") then "output"
  else if decide (dir = "i") then "input"
  else "none".

(** ** The platform object

    [self], as far as this file reads it. The methods and filters the file
    calls but does not define (they belong to the resource manager, the
    templated platform and the board definition) are fields:
    [map_names res] is [res.ios[0].map_names(self._conn_pins, res)], which
    succeeded for every entry of [self._ports] when the resource was
    requested; [request] is [self.request(name).i], the name of the signal
    or the exception raised; [ascii_escape] is the template filter. *)

Inductive Exn :=
| KeyError (key : string)
| IndexError
| ZeroDivisionError
| NotImplementedError
| ResourceError (name : string).

#[global] Instance Exn_eq_dec : EqDecision Exn.
Proof. solve_decision. Defined.

(** An entry [res, pin, port, attrs] of [self._ports]; of [port] only
    [port.io.name] is read, and [pin] is not read at all. *)
Record PortBinding := {
  pb_res : Resource;
  pb_port_io_name : string;
  pb_attrs : Attrs
}.

(** An entry [net_signal, port_signal, frequency] of
    [iter_clock_constraints()]; of a signal only its name is read. The
    frequency, a Python float, is an exact rational here: rounding is not
    modelled, division by zero is. *)
Record ClockConstraint := {
  net_signal : string;
  port_signal : option string;
  frequency : Qc
}.

Record Platform := {
  family : string;
  device : string;
  package : string;
  speed : string;
  default_clk : option string;
  default_rst : option string;
  _ports : list PortBinding;
  map_names : Resource → list string;
  request : string → Exn + string;
  iter_clock_constraints : list ClockConstraint;
  ascii_escape : string → string
}.

(** ** GPIO constraint enumerator (lines 316-343)

    The tuple the generator yields, positionally:
    [pin name, port name, direction, is_differential, bit_attrs, in_attrs,
    out_attrs, oe_attrs]. *)

Definition GpioTuple : Type :=
  string * string * string * bool * Attrs * Attrs * Attrs * Attrs.

(** ["{}[{}]".format(name, bit)] *)
Definition indexed_name (name : string) (bit : nat) : string :=
  name +:+ "[" +:+ pretty bit +:+ "]".

(** Body of the loop [for res, pin, port, attrs in self._ports]. *)
Definition gpio_of_port (self : Platform) (p : PortBinding) : list GpioTuple :=
  let res := pb_res p in
  let is_differential := ios0_is_DiffPairs res in
  let pin_names := map_names self res in
  let b := _generate_efinix_attrs res (pb_attrs p) in
  let direction := _direction_from_resource res in
  match pin_names with
  | [pin_name] =>
      [(pin_name, pb_port_io_name p, direction, is_differential,
        b_pin b, b_in b, b_out b, b_oe b)]
  | _ =>
      imap (λ bit pin_name,
              (pin_name, indexed_name (pb_port_io_name p) bit, direction,
               is_differential, b_pin b, b_in b, b_out b, b_oe b))
           pin_names
  end.

Definition iter_gpio_constraints (self : Platform) : list GpioTuple :=
  _ports self ≫= gpio_of_port self.

(** Positional readers of a yielded tuple. *)
Definition t_pin (t : GpioTuple) : string := t.1.1.1.1.1.1.1.
Definition t_port (t : GpioTuple) : string := t.1.1.1.1.1.1.2.
Definition t_direction (t : GpioTuple) : string := t.1.1.1.1.1.2.
Definition t_is_differential (t : GpioTuple) : bool := t.1.1.1.1.2.
Definition t_bit_attrs (t : GpioTuple) : Attrs := t.1.1.1.2.
Definition t_in_attrs (t : GpioTuple) : Attrs := t.1.1.2.
Definition t_out_attrs (t : GpioTuple) : Attrs := t.1.2.
Definition t_oe_attrs (t : GpioTuple) : Attrs := t.2.

(** ** Results that may raise *)

Abbreviation Res := (sum Exn).

#[global] Instance res_ret : MRet Res := λ A, inr.
#[global] Instance res_bind : MBind Res := λ A B k r,
  match r with
  | inl e => inl e
  | inr a => k a
  end.
#[global] Instance res_fmap : FMap Res := λ A B f r,
  match r with
  | inl e => inl e
  | inr a => inr (f a)
  end.

(** ** Pin-constraint file [{{name}}.peri.xml] (lines 98-121)

    The rendered document as a tree of elements, each with its tag, its
    fields in the order the template writes them and its nested elements;
    the white space between them is not modelled. A dictionary's
    [items()] are the entries of the map; the order in which the entries of
    one dictionary follow each other is the map's, not the insertion order
    of Python. *)

#[warnings="-register-all"]
Inductive Xml :=
| Element (tag : string) (fields : list (string * string)) (body : list Xml).

Definition xml_tag (x : Xml) : string :=
  match x with Element tag _ _ => tag end.
Definition xml_fields (x : Xml) : list (string * string) :=
  match x with Element _ fields _ => fields end.
Definition xml_body (x : Xml) : list Xml :=
  match x with Element _ _ body => body end.

(** [{%- for key, value in d.items() %} {{key}}="{{value}}"{% endfor %}] *)
Definition items_fields (d : Attrs) : list (string * string) :=
  map_to_list d.

(** Body of the template's loop over [platform.iter_gpio_constraints()].
    The loop header unpacks each tuple positionally into
    [port_name, pin_name, direction, lvds, port_attrs, input_attrs,
    output_attrs, output_enable_attrs]. *)
Definition peri_gpio (t : GpioTuple) : Xml :=
  let '(port_name, pin_name, direction, lvds, port_attrs, input_attrs,
        output_attrs, output_enable_attrs) := t in
  Element "efxpt:gpio"
    ([("name", pin_name); ("gpio_def", port_name); ("mode", direction)]
       ++ items_fields port_attrs)
    ((if decide (direction ∈ ["input"; "inout"])
      then [Element "efxpt:input_config"
              (("name", pin_name) :: items_fields input_attrs) []]
      else [])
     ++ (if decide (direction ∈ ["output"; "inout"])
         then [Element "efxpt:output_config"
                 (("name", pin_name) :: items_fields output_attrs) []]
         else [])
     ++ (if decide (direction = "inout")
         then [Element "efxpt:output_enable_config"
                 (("name", port_name) :: items_fields output_enable_attrs) []]
         else [])).

Definition peri_xml (name : string) (self : Platform) : Xml :=
  Element "efxpt:design_db"
    [("name", name); ("device_def", device self +:+ package self);
     ("location", "."); ("version", "2023.1.150"); ("db_version", "20231999");
     ("last_change_date", "Sat Nov  4 21:14:37 2023");
     ("xmlns:efxpt", "http://www.efinixinc.com/peri_design_db");
     ("xmlns:xsi", "http://www.w3.org/2001/XMLSchema-instance");
     ("xsi:schemaLocation",
      "http://www.efinixinc.com/peri_design_db peri_design_db.xsd ")]
    [Element "efxpt:gpio_info"
       [("device_def", device self +:+ package self)]
       ((peri_gpio <$> iter_gpio_constraints self)
          ++ [Element "efxpt:global_unused_config"
                [("state", "input with weak pullup")] []]);
     Element "efxpt:pll_info" [] [];
     Element "efxpt:lvds_info" [] [];
     Element "efxpt:jtag_info" [] []].

(** The nested elements of [x] that carry the tag [tag]. *)
Definition blocks (tag : string) (x : Xml) : list Xml :=
  filter (λ c, xml_tag c = tag) (xml_body x).

(** ** Timing-constraint file [{{name}}.sdc] (lines 134-141) *)

Inductive SdcLine :=
| sdc_comment (text : string)
| create_clock (period : Qc) (target : string).

#[global] Instance SdcLine_eq_dec : EqDecision SdcLine.
Proof. solve_decision. Defined.

(** [{{100000000/frequency}}]: true division, which raises on a zero
    divisor. The quotient is kept as the exact rational the division
    rounds; it says which division the template writes and when it raises,
    not which float is printed. *)
Definition period_of (frequency : Qc) : Res Qc :=
  if decide (frequency = Q2Qc 0) then inl ZeroDivisionError
  else inr (Qc_of_Z 100000000 / frequency)%Qc.

(** The template's loop over [platform.iter_clock_constraints()]. *)
Fixpoint sdc_clocks (self : Platform) (cs : list ClockConstraint) : Res (list SdcLine) :=
  match cs with
  | [] => inr []
  | c :: cs' =>
      match port_signal c with
      | Some port_name =>
          period ← period_of (frequency c);
          rest ← sdc_clocks self cs';
          inr (create_clock period (ascii_escape self port_name) :: rest)
      | None => sdc_clocks self cs'
      end
  end.

Definition sdc_file (autogenerated : string) (self : Platform) : Res (list SdcLine) :=
  clocks ← sdc_clocks self (iter_clock_constraints self);
  inr (sdc_comment autogenerated :: clocks).

(** ** Toolchain commands [command_templates] (lines 180-262)

    Each template rendered for a design [name]: the program, its arguments
    in order (without the quoting of the shell), and whether the output is
    redirected ([{% if quiet %} >NUL]). *)

Inductive Program :=
| invoke_tool (tool : string)
| sys_executable.

#[global] Instance Program_eq_dec : EqDecision Program.
Proof. solve_decision. Defined.

Record Command := {
  cmd_program : Program;
  cmd_args : list string;
  cmd_to_NUL : bool
}.

#[global] Instance Command_eq_dec : EqDecision Command.
Proof. solve_decision. Defined.

Definition efx_map_command (name : string) (self : Platform) (quiet : bool) : Command :=
  {| cmd_program := invoke_tool "efx_map";
     cmd_args :=
       ["--project"; name; "--root"; name;
        "--write-efx-verilog"; name +:+ ".map.v";
        "--write-premap-module"; name +:+ ".elab.vdb";
        "--binary-db"; name +:+ ".vdb";
        "--device"; device self; "--family"; "Trion";
        "--work-dir"; "./work"; "--output-dir"; "./outflow";
        "--project-xml"; name +:+ ".xml"; "--I"; "."];
     cmd_to_NUL := quiet |}.

Definition efx_run_pt_command (name : string) (self : Platform) (quiet : bool) : Command :=
  {| cmd_program := sys_executable;
     cmd_args :=
       ["-E"; "run_platform_tool.py"; "scripts/efx_run_pt.py"; name;
        family self; device self +:+ package self];
     cmd_to_NUL := quiet |}.

Definition efx_pnr_command (name : string) (self : Platform) (quiet : bool) : Command :=
  {| cmd_program := invoke_tool "efx_pnr";
     cmd_args :=
       ["--circuit"; name; "--family"; family self;
        "--device"; device self +:+ package self;
        "--operating_conditions"; "C" +:+ speed self;
        "--pack"; "--place"; "--route";
        "--vdb_file"; "work/" +:+ name +:+ ".vdb"; "--use_vdb_file"; "on";
        "--place_file"; "outflow/" +:+ name +:+ ".place";
        "--route_file"; "outflow/" +:+ name +:+ ".route";
        "--sync_file"; "outflow/" +:+ name +:+ ".interface.csv";
        "--seed"; "1"; "--placer_effort_level"; "2"; "--max_threads"; "-1";
        "--work_dir"; "work"; "--output_dir"; "out";
        "--timing_analysis"; "on"; "--load_delay_matrix"];
     cmd_to_NUL := quiet |}.

Definition efx_pgm_command (name : string) (self : Platform) (quiet : bool) : Command :=
  {| cmd_program := invoke_tool "efx_pgm";
     cmd_args :=
       ["--source"; "work/" +:+ name +:+ ".lbf"; "--dest"; name +:+ ".hex";
        "--device"; device self +:+ package self; "--family"; family self;
        "--periph"; "outflow/" +:+ name +:+ ".lpf";
        "--interface_designer_settings"; "outflow/" +:+ name +:+ "_or.ini";
        "--enable_external_master_clock"; "off";
        "--oscillator_clock_divider"; "DIV8";
        "--active_capture_clk_edge"; "posedge";
        "--spi_low_power_mode"; "on"; "--io_weak_pullup"; "on";
        "--enable_roms"; "smart"; "--mode"; "active"; "--width"; "1";
        "--release_tri_then_reset"; "on"];
     cmd_to_NUL := quiet |}.

Definition command_templates (name : string) (self : Platform) (quiet : bool) : list Command :=
  [efx_map_command name self quiet;
   efx_run_pt_command name self quiet;
   efx_pnr_command name self quiet;
   efx_pgm_command name self quiet].

(** Modelled from the spec: the status the build driver reports. The
    driver is the build script of the templated platform and the shell that
    executes it, neither of which is in this file. *)
Inductive BuildStatus :=
| BuildSucceeded
| BuildFailed.

#[global] Instance BuildStatus_eq_dec : EqDecision BuildStatus.
Proof. solve_decision. Defined.



(** ** Wrapper script [run_platform_tool.py] (lines 149-177)

    The script runs in a Python process whose dictionaries live in a heap
    of objects addressed by reference; [os.environ] is the object at
    [os_environ]. [dict_copy] allocates a new object, [dict_setitem] writes
    the object it is given a reference to. [os.path.join] and [glob.glob],
    which belong to the Python library, are fields of [OsModule]. The
    script only uses references it holds; for a reference to no object the
    operations below raise [IndexError]. *)

Abbreviation Env := (gmap string string).
Abbreviation Heap := (list Env).

Definition os_environ : nat := 0.

Record OsModule := {
  path_join : list string → string;
  glob_glob : string → list string
}.

Definition Py (A : Type) : Type := Heap → Res A * Heap.

#[global] Instance py_ret : MRet Py := λ A a h, (inr a, h).
#[global] Instance py_bind : MBind Py := λ A B k m h,
  match m h with
  | (inl e, h1) => (inl e, h1)
  | (inr a, h1) => k a h1
  end.

Definition py_raise {A} (e : Exn) : Py A := λ h, (inl e, h).

(** [d[key]] for reading. *)
Definition dict_getitem (d : nat) (key : string) : Py string := λ h,
  match h !! d with
  | Some m =>
      match m !! key with
      | Some v => (inr v, h)
      | None => (inl (KeyError key), h)
      end
  | None => (inl IndexError, h)
  end.

(** [d.copy()] *)
Definition dict_copy (d : nat) : Py nat := λ h,
  match h !! d with
  | Some m => (inr (length h), h ++ [m])
  | None => (inl IndexError, h)
  end.

(** [d[key] = value] *)
Definition dict_setitem (d : nat) (key value : string) : Py () := λ h,
  match h !! d with
  | Some m => (inr (), <[d := <[key := value]> m]> h)
  | None => (inl IndexError, h)
  end.

(** The dictionary behind a reference, as [subprocess.run] reads [env]. *)
Definition dict_read (d : nat) : Py Env := λ h,
  match h !! d with
  | Some m => (inr m, h)
  | None => (inl IndexError, h)
  end.

(** [l[i]] on a Python list. *)
Definition list_getitem {A} (l : list A) (i : nat) : Py A :=
  match l !! i with
  | Some x => mret x
  | None => py_raise IndexError
  end.

(** What the script hands to [subprocess.run]: the argument vector and the
    environment of the child process. *)
Record Spawn := {
  spawn_args : list string;
  spawn_env : Env
}.

Definition run_platform_tool (os : OsModule) (sys_argv : list string) : Py Spawn :=
  efinity_home ← dict_getitem os_environ "EFINITY_HOME";
  let python_glob := path_join os [efinity_home; "python*"] in
  target_pythonhome ← list_getitem (glob_glob os python_glob) 0;
  let target_python := path_join os [target_pythonhome; "bin"; "python"] in
  target_env ← dict_copy os_environ;
  _ ← dict_setitem target_env "PYTHONHOME" target_pythonhome;
  _ ← dict_setitem target_env "EFXPT_HOME" (path_join os [efinity_home; "pt"]);
  _ ← dict_setitem target_env "EFXPGM_HOME" (path_join os [efinity_home; "pgm"]);
  _ ← dict_setitem target_env "EFXDBG_HOME" (path_join os [efinity_home; "debugger"]);
  script ← list_getitem sys_argv 1;
  env ← dict_read target_env;
  mret {| spawn_args :=
            [target_python; path_join os [efinity_home; script]] ++ drop 2 sys_argv;
          spawn_env := env |}.

(** ** Clock-domain fallback [create_missing_domain] (lines 373-399)

    The module the method builds is described by what drives its clock and
    its reset; [None] for the reset is [Const(0)]. A method that falls off
    its end returns [None]. *)

Record SyncDomain := {
  clk_i : string;
  rst_i : option string
}.

Definition create_missing_domain (self : Platform) (name : string) : Res (option SyncDomain) :=
  if decide (name = "sync") then
    match default_clk self with
    | Some clk =>
        clk_i ←
          (if decide (clk = "oscint" ∧ device self ∈ ["T4"; "T8"])
           then inl NotImplementedError
           else request self clk);
        rst_i ←
          match default_rst self with
          | Some rst => Some <$> request self rst
          | None => inr None
          end;
        inr (Some {| clk_i := clk_i; rst_i := rst_i |})
    | None => inr None
    end
  else inr None.

(** ** Vocabulary of the statements *)

(** The entries of a mapping whose name a table lists. *)
Definition listed (TABLE : list string) (kv : string * string) : Prop :=
  kv.1 ∈ TABLE.

#[global] Instance listed_dec TABLE kv : Decision (listed TABLE kv).
Proof. unfold listed. apply _. Defined.

(** The number of physical pins a binding resolves to. *)
Definition width (self : Platform) (p : PortBinding) : nat :=
  length (map_names self (pb_res p)).

(** The tuple yielded for bit [bit] of a binding, for a resolved pin. *)
Definition tuple_at (self : Platform) (p : PortBinding) (bit : nat) (pin_name : string) : GpioTuple :=
  (pin_name,
   if decide (width self p = 1) then pb_port_io_name p
   else indexed_name (pb_port_io_name p) bit,
   _direction_from_resource (pb_res p),
   ios0_is_DiffPairs (pb_res p),
   b_pin (_generate_efinix_attrs (pb_res p) (pb_attrs p)),
   b_in (_generate_efinix_attrs (pb_res p) (pb_attrs p)),
   b_out (_generate_efinix_attrs (pb_res p) (pb_attrs p)),
   b_oe (_generate_efinix_attrs (pb_res p) (pb_attrs p))).

(** The entries of the [efxpt:gpio_info] element of a rendered document
    that are [efxpt:gpio] elements. *)
Definition gpio_entries (doc : Xml) : list Xml :=
  blocks "efxpt:gpio_info" doc ≫= blocks "efxpt:gpio".

(** The line the template writes for a constraint, if it writes one. *)
Definition clock_line (self : Platform) (c : ClockConstraint) : option SdcLine :=
  (λ port_name,
     create_clock (Qc_of_Z 100000000 / frequency c)%Qc (ascii_escape self port_name))
    <$> port_signal c.

(** The environment the wrapper script builds from the environment [E] of
    its process, for an installation at [home] with interpreter home
    [pyhome]. *)
Definition target_env_of (os : OsModule) (home pyhome : string) (E : Env) : Env :=
  <["EFXDBG_HOME" := path_join os [home; "debugger"]]>
    (<["EFXPGM_HOME" := path_join os [home; "pgm"]]>
       (<["EFXPT_HOME" := path_join os [home; "pt"]]>
          (<["PYTHONHOME" := pyhome]> E))).



(** ** Sample inputs *)

Definition ex_attrs : Attrs :=
  {[ "io_standard" := "3.3 V LVTTL / LVCMOS"; "clock_name" := "clk";
     "drive_strength" := "4mA"; "bogus" := "x" ]}.

Definition ex_led : Resource :=
  {| res_name := "led"; clock := false; ios0_dir := "o";
     ios0_is_DiffPairs := false |}.

Definition ex_data : Resource :=
  {| res_name := "data"; clock := false; ios0_dir := "io";
     ios0_is_DiffPairs := false |}.

Definition ex_led_port : PortBinding :=
  {| pb_res := ex_led; pb_port_io_name := "led"; pb_attrs := ex_attrs |}.

Definition ex_data_port : PortBinding :=
  {| pb_res := ex_data; pb_port_io_name := "data"; pb_attrs := ∅ |}.

(** A binding that resolves to no pin. *)
Definition ex_nc_port : PortBinding :=
  {| pb_res := {| res_name := "nc"; clock := false; ios0_dir := "-";
                  ios0_is_DiffPairs := false |};
     pb_port_io_name := "nc"; pb_attrs := ∅ |}.

Definition ex_clk12 : ClockConstraint :=
  {| net_signal := "clk"; port_signal := Some "clk12";
     frequency := Qc_of_Z 12000000 |}.

Definition ex_internal : ClockConstraint :=
  {| net_signal := "pll_out"; port_signal := None;
     frequency := Qc_of_Z 48000000 |}.

Definition ex_stopped : ClockConstraint :=
  {| net_signal := "clk"; port_signal := Some "clk"; frequency := Q2Qc 0 |}.

Definition ex_platform (clk : option string) (clocks : list ClockConstraint) : Platform :=
  {| family := "Trion"; device := "T8"; package := "F81"; speed := "2";
     default_clk := clk; default_rst := None;
     _ports := [ex_led_port; ex_nc_port; ex_data_port];
     map_names := λ r,
       if decide (res_name r = "led") then ["A3"]
       else if decide (res_name r = "data") then ["B1"; "B2"; "B3"; "B4"]
       else [];
     request := λ n, inr n;
     iter_clock_constraints := clocks;
     ascii_escape := id |}.

Definition ex_os : OsModule :=
  {| path_join := λ parts, foldr (λ a b, if decide (b = "") then a else a +:+ "/" +:+ b) "" parts;
     glob_glob := λ pat,
       if decide (pat = "/opt/efinity/python*") then ["/opt/efinity/python38"] else [] |}.

Definition ex_environ : Env :=
  {[ "EFINITY_HOME" := "/opt/efinity"; "PATH" := "/usr/bin" ]}.


(** ** Further parts of the platform *)

(** [required_tools] (lines 63-67). *)
Definition required_tools : list string :=
  ["efx_map"; "efx_pnr"; "efx_pgm"].

(** *** Project file [{{name}}.xml] (lines 73-94)

    [files] is what [platform.iter_files(".v", ".sv", ".vhd", ".vhdl")]
    yields: the names of the design's extra source files, in its order. *)

Definition project_design_file (file_name : string) : Xml :=
  Element "efx:design_file"
    [("name", file_name); ("version", "default"); ("library", "default")] [].

Definition project_xml (name : string) (self : Platform) (files : list string) : Xml :=
  Element "efx:project"
    [("name", name); ("description", "");
     ("last_change_date", "at January 1 1970 00:00:00"); ("location", ".");
     ("sw_version", "2023.1.150"); ("last_run_state", "");
     ("last_run_tool", ""); ("last_run_flow", "");
     ("config_result_in_sync", "true"); ("design_ood", "sync");
     ("place_ood", ""); ("route_ood", "sync");
     ("xmlns:efx", "http://www.efinixinc.com/enf_proj");
     ("xmlns:xsi", "http://www.w3.org/2001/XMLSchema-instance");
     ("xsi:schemaLocation", "http://www.efinixinc.com/enf_proj enf_proj.xsd")]
    [Element "efx:device_info" []
       [Element "efx:family" [("name", family self)] [];
        Element "efx:device" [("name", device self +:+ package self)] [];
        Element "efx:timing_model" [("name", "C" +:+ speed self)] []];
     Element "efx:design_info"
       [("def_veri_version", "sv_09"); ("def_vhdl_version", "vhdl_2008")]
       ([Element "efx:top_module" [("name", name)] [];
         project_design_file (name +:+ ".v")]
          ++ ((λ file, project_design_file (ascii_escape self file +:+ ".v"))
                <$> files)
          ++ [Element "efx:top_vhdl_arch" [("name", "")] []]);
     Element "efx:constraint_info" []
       [Element "efx:sdc_file" [("name", name +:+ ".sdc")] [];
        Element "efx:inter_file" [("name", "")] []]].

(** *** The generated files [file_templates] (lines 69-178)

    The entries this file adds to the build-script templates of the base
    class, with their names rendered for a design [name], in the order of
    the dictionary. [verilog] and [debug_verilog] are what [emit_verilog()]
    and [emit_debug_verilog()] give. *)

Inductive Rendered :=
| rendered_xml (doc : Xml)
| rendered_verilog (autogenerated text : string)
| rendered_sdc (lines : Res (list SdcLine))
| rendered_script (run : OsModule → list string → Py Spawn).

Definition file_templates (autogenerated name : string) (self : Platform)
    (files : list string) (verilog debug_verilog : string)
    : list (string * Rendered) :=
  [(name +:+ ".xml", rendered_xml (project_xml name self files));
   (name +:+ ".peri.xml", rendered_xml (peri_xml name self));
   (name +:+ ".v", rendered_verilog autogenerated verilog);
   (name +:+ ".debug.v", rendered_verilog autogenerated debug_verilog);
   (name +:+ ".sdc", rendered_sdc (sdc_file autogenerated self));
   ("run_platform_tool.py", rendered_script run_platform_tool)].

(** *** The wrapper script as a process (lines 149-177)

    [subprocess.run] starts the child and waits for it; it is called
    without [check], and its result is dropped: the script ends after it.
    [subprocess_run] is that call, giving the return code of the child or
    the exception raised when the child cannot be started. A Python process
    exits with status 0 when its script ends and with status 1 when an
    exception is not caught. *)

Definition run_platform_tool_script (os : OsModule)
    (subprocess_run : Spawn → Res Z) (sys_argv : list string) : Py () :=
  spawn ← run_platform_tool os sys_argv;
  _ ← (λ h, (subprocess_run spawn, h)) : Py Z;
  mret ().

Definition exit_status {A} (outcome : Res A * Heap) : Z :=
  match outcome.1 with
  | inr _ => 0%Z
  | inl _ => 1%Z
  end.

(** The interpreter started as [python -E script arg ...] sets [sys.argv]
    to [script, arg, ...]. *)
Definition sys_argv_of (command_line : list string) : list string :=
  drop 2 command_line.

(** *** [run_efinity_platform_tool] (lines 346-357)

    The argument vector the method hands to [subprocess.check_call];
    [executable] is [sys.executable] and [helper_script] the path under
    which [products.extract] provides the wrapper script. *)
Definition run_efinity_platform_tool (executable helper_script : string)
    (args : list string) : list string :=
  [executable; "-E"; helper_script] ++ args.

(** ** Further vocabulary *)

(** The tools a list of commands starts through [invoke_tool]. *)
Definition invoked_tools (commands : list Command) : list string :=
  omap (λ c, match cmd_program c with
             | invoke_tool tool => Some tool
             | sys_executable => None
             end) commands.

(** The value of the option [flag] in an argument list that is read as
    options, each followed by its value. *)
Fixpoint option_value (flag : string) (args : list string) : option string :=
  match args with
  | a :: value :: rest =>
      if decide (a = flag) then Some value else option_value flag rest
  | _ => None
  end.

(** The value of the field [key] of an element. *)
Definition xml_field (key : string) (x : Xml) : option string :=
  (list_to_map (xml_fields x) : gmap string string) !! key.

(** The names of the design files a project document lists. *)
Definition project_design_files (doc : Xml) : list string :=
  omap (xml_field "name")
       (blocks "efx:design_info" doc ≫= blocks "efx:design_file").

(** A constraint whose external port signal is bound. *)
Definition is_bound (c : ClockConstraint) : Prop :=
  is_Some (port_signal c).

#[global] Instance is_bound_dec c : Decision (is_bound c).
Proof. unfold is_bound. apply _. Defined.

(** The names of all attributes some table lists. *)
Definition KNOWN_ATTRS : list string :=
  PIN_ATTRS ++ INPUT_ATTRS ++ OUTPUT_ATTRS ++ OE_ATTRS.

(** The [conn_type] the classifier supplies for a resource. *)
Definition conn_type_default (res : Resource) : string :=
  if clock res then "gclk" else "normal".

(** * Properties *)

(** ** The loop of the classifier *)

Lemma put_if_listed_filter (TABLE : list string) k v (m : Attrs) :
  m !! k = None →
  put_if_listed TABLE k v (filter (listed TABLE) m) =
  filter (listed TABLE) (<[k := v]> m).
Proof.
  intros Hk. unfold put_if_listed. destruct (decide (k ∈ TABLE)) as [Hin|Hin].
  - by rewrite map_filter_insert_True.
  - rewrite map_filter_insert_False by done. by rewrite delete_id.
Qed.

Lemma place_all (attrs : Attrs) :
  map_fold place_attr no_attrs attrs =
  {| b_pin := filter (listed PIN_ATTRS) attrs;
     b_in := filter (listed INPUT_ATTRS) attrs;
     b_out := filter (listed OUTPUT_ATTRS) attrs;
     b_oe := filter (listed OE_ATTRS) attrs |}.
Proof.
  induction attrs as [|k v m Hk Hfst IH] using map_first_key_ind.
  - rewrite map_fold_empty. unfold no_attrs. by rewrite !map_filter_empty.
  - rewrite map_fold_insert_first_key by done. rewrite IH.
    unfold place_attr; simpl. by rewrite !put_if_listed_filter.
Qed.


(** ** The attribute classifier *)

Lemma lookup_listed (TABLE : list string) (attrs : Attrs) name value :
  filter (listed TABLE) attrs !! name = Some value ↔
  attrs !! name = Some value ∧ name ∈ TABLE.
Proof. by rewrite map_lookup_filter_Some. Qed.

Lemma generated_pin res attrs :
  b_pin (_generate_efinix_attrs res attrs) = filter (listed PIN_ATTRS) attrs.
Proof. unfold _generate_efinix_attrs. by rewrite place_all. Qed.

Lemma generated_out res attrs :
  b_out (_generate_efinix_attrs res attrs) = filter (listed OUTPUT_ATTRS) attrs.
Proof. unfold _generate_efinix_attrs. by rewrite place_all. Qed.

Lemma generated_oe res attrs :
  b_oe (_generate_efinix_attrs res attrs) = ∅.
Proof.
  unfold _generate_efinix_attrs. rewrite place_all. simpl.
  apply map_empty. intros name. apply map_lookup_filter_None. right.
  intros value _ Hin. unfold listed, OE_ATTRS in Hin. by apply elem_of_nil in Hin.
Qed.

Lemma generated_in res attrs :
  b_in (_generate_efinix_attrs res attrs) =
  default_conn_type res (filter (listed INPUT_ATTRS) attrs).
Proof. unfold _generate_efinix_attrs. by rewrite place_all. Qed.

Lemma conn_type_listed : "conn_type" ∈ INPUT_ATTRS.
Proof. unfold INPUT_ATTRS. set_solver. Qed.

Lemma lookup_conn_type_listed (attrs : Attrs) :
  filter (listed INPUT_ATTRS) attrs !! "conn_type" = attrs !! "conn_type".
Proof.
  apply option_eq. intros v. rewrite lookup_listed.
  split; [by intros [? _]|]. intros Hv. split; [done|]. apply conn_type_listed.
Qed.

(** What [default_conn_type] leaves in the dictionary, key by key. *)
Lemma lookup_default_conn_type res (d : Attrs) name :
  default_conn_type res d !! name =
  match d !! name with
  | Some v => Some v
  | None =>
      if decide (name = "conn_type")
      then Some (if clock res then "gclk" else "normal")
      else None
  end.
Proof.
  unfold default_conn_type.
  destruct (d !! "conn_type") as [c|] eqn:Hc.
  - destruct (d !! name) eqn:Hn; [done|]. case_decide; [|done]. congruence.
  - destruct (decide (name = "conn_type")) as [->|Hne].
    + rewrite Hc. destruct (clock res); by rewrite lookup_insert_eq.
    + destruct (clock res); rewrite lookup_insert_ne by done;
        by destruct (d !! name).
Qed.

(** C1. For every resource and attribute mapping, an entry [(name, value)]
    is in the pin, output or output-enable bucket exactly when it is an
    entry of the mapping and the bucket's table lists [name]; it is in the
    input bucket exactly when that holds for [INPUT_ATTRS] or it is the
    injected [conn_type] default of a mapping without [conn_type]. Hence a
    name in several tables is in each of their buckets, a name in no table
    is in none, and nothing else is in a bucket. The classifier is a total
    function: it returns four dictionaries for every input. *)
Theorem classifier_buckets (res : Resource) (attrs : Attrs) (name value : string) :
  (b_pin (_generate_efinix_attrs res attrs) !! name = Some value ↔
     attrs !! name = Some value ∧ name ∈ PIN_ATTRS)
  ∧ (b_in (_generate_efinix_attrs res attrs) !! name = Some value ↔
       (attrs !! name = Some value ∧ name ∈ INPUT_ATTRS)
       ∨ (name = "conn_type" ∧ attrs !! "conn_type" = None
          ∧ value = if clock res then "gclk" else "normal"))
  ∧ (b_out (_generate_efinix_attrs res attrs) !! name = Some value ↔
       attrs !! name = Some value ∧ name ∈ OUTPUT_ATTRS)
  ∧ (b_oe (_generate_efinix_attrs res attrs) !! name = Some value ↔
       attrs !! name = Some value ∧ name ∈ OE_ATTRS).
Proof.
  rewrite generated_pin, generated_out, generated_in.
  split_and!.
  - apply lookup_listed.
  - rewrite lookup_default_conn_type.
    destruct (filter (listed INPUT_ATTRS) attrs !! name) as [v|] eqn:Hf.
    + apply lookup_listed in Hf as [Hv Hin]. split.
      * intros [= <-]. by left.
      * intros [[Hv' _]|(-> & Hnone & _)]; congruence.
    + assert (¬ (attrs !! name = Some value ∧ name ∈ INPUT_ATTRS)) as Hno.
      { rewrite <- lookup_listed. congruence. }
      case_decide as Hname.
      * subst name. rewrite lookup_conn_type_listed in Hf. split.
        -- intros [= <-]. by right.
        -- intros [?|(_ & _ & ->)]; [tauto|done].
      * split; [done|]. intros [?|(? & _)]; tauto.
  - apply lookup_listed.
  - rewrite generated_oe, lookup_empty. split; [done|].
    intros [_ Hin]. unfold OE_ATTRS in Hin. by apply elem_of_nil in Hin.
Qed.

(** C2. For every resource and attribute mapping the input bucket has a
    [conn_type] entry: the supplied value when the mapping has the key,
    otherwise ["gclk"] for a clock resource and ["normal"] for any other;
    so the input bucket is never empty. *)
Theorem classifier_conn_type (res : Resource) (attrs : Attrs) :
  b_in (_generate_efinix_attrs res attrs) !! "conn_type" =
    Some (match attrs !! "conn_type" with
          | Some supplied => supplied
          | None => if clock res then "gclk" else "normal"
          end)
  ∧ b_in (_generate_efinix_attrs res attrs) ≠ ∅.
Proof.
  assert (b_in (_generate_efinix_attrs res attrs) !! "conn_type" =
    Some (match attrs !! "conn_type" with
          | Some supplied => supplied
          | None => if clock res then "gclk" else "normal"
          end)) as Hconn.
  { rewrite generated_in, lookup_default_conn_type, lookup_conn_type_listed.
    by destruct (attrs !! "conn_type"). }
  split; [done|]. intros Hempty. by rewrite Hempty, lookup_empty in Hconn.
Qed.

(** ** The enumerator *)

Lemma gpio_of_port_imap self p :
  gpio_of_port self p = imap (tuple_at self p) (map_names self (pb_res p)).
Proof.
  unfold gpio_of_port, tuple_at, width.
  destruct (map_names self (pb_res p)) as [|pin [|pin' pins]]; simpl.
  - done.
  - done.
  - done.
Qed.

Lemma gpio_of_port_lookup self p i :
  gpio_of_port self p !! i = tuple_at self p i <$> map_names self (pb_res p) !! i.
Proof. by rewrite gpio_of_port_imap, list_lookup_imap. Qed.

Lemma gpio_of_port_length self p :
  length (gpio_of_port self p) = width self p.
Proof. by rewrite gpio_of_port_imap, length_imap. Qed.

Lemma gpio_of_port_pins self p :
  t_pin <$> gpio_of_port self p = map_names self (pb_res p).
Proof.
  apply list_eq. intros i.
  rewrite list_lookup_fmap, gpio_of_port_lookup.
  by destruct (map_names self (pb_res p) !! i).
Qed.

Lemma bind_length {A B} (f : A → list B) (l : list A) :
  length (l ≫= f) = sum_list (length ∘ f <$> l).
Proof.
  induction l as [|x l IH]; [done|].
  rewrite bind_cons, length_app, IH. done.
Qed.

Lemma iter_gpio_constraints_length self :
  length (iter_gpio_constraints self) = sum_list (width self <$> _ports self).
Proof.
  unfold iter_gpio_constraints. rewrite bind_length. f_equal.
  apply list_fmap_ext. intros _ p _. apply gpio_of_port_length.
Qed.

(** C3. The enumerator yields exactly as many tuples as the bindings have
    resolved pins in total. The tuples come binding by binding, in the order
    of [self._ports], and within a binding pin by pin, in the order of the
    resolved list with the bit index counting up from 0; so the pins of the
    tuples are the resolved lists joined. A binding that resolves to no pin
    yields no tuple. The enumerator is a total function. *)
Theorem enumerator_length_order (self : Platform) :
  length (iter_gpio_constraints self) = sum_list (width self <$> _ports self)
  ∧ iter_gpio_constraints self =
      _ports self ≫= (λ p, imap (tuple_at self p) (map_names self (pb_res p)))
  ∧ t_pin <$> iter_gpio_constraints self =
      _ports self ≫= (λ p, map_names self (pb_res p))
  ∧ ∀ p, map_names self (pb_res p) = [] → gpio_of_port self p = [].
Proof.
  split_and!.
  - apply iter_gpio_constraints_length.
  - unfold iter_gpio_constraints.
    induction (_ports self) as [|p ps IH]; [done|].
    by rewrite !bind_cons, IH, gpio_of_port_imap.
  - unfold iter_gpio_constraints.
    induction (_ports self) as [|p ps IH]; [done|].
    by rewrite !bind_cons, fmap_app, IH, gpio_of_port_pins.
  - intros p Hnil. rewrite gpio_of_port_imap, Hnil. done.
Qed.

Lemma enumerator_length_order_witness :
  gpio_of_port (ex_platform None []) ex_nc_port = [].
Proof.
  apply (enumerator_length_order (ex_platform None [])). reflexivity.
Defined.

(** C4. Take a binding of [self._ports] with port signal name [P] and its
    [i]-th resolved pin. The enumerator yields a tuple for it, at the
    position that follows the tuples of the bindings before it by [i]; the
    tuple carries that pin, and its port signal name is ["P[i]"] when the
    binding resolves to more than one pin and [P] itself when it resolves
    to exactly one. *)
Theorem port_signal_names (self : Platform) (before after : list PortBinding)
    (p : PortBinding) (i : nat) (pin : string) :
  _ports self = before ++ p :: after →
  map_names self (pb_res p) !! i = Some pin →
  ∃ t, iter_gpio_constraints self !! (sum_list (width self <$> before) + i) = Some t
       ∧ t_pin t = pin
       ∧ (1 < width self p →
          t_port t = pb_port_io_name p +:+ "[" +:+ pretty i +:+ "]")
       ∧ (width self p = 1 → t_port t = pb_port_io_name p).
Proof.
  intros Hports Hpin. exists (tuple_at self p i pin). split_and!.
  - unfold iter_gpio_constraints. rewrite Hports, bind_app, bind_cons.
    assert (length (before ≫= gpio_of_port self) = sum_list (width self <$> before))
      as <-.
    { rewrite bind_length. f_equal. apply list_fmap_ext.
      intros _ q _. apply gpio_of_port_length. }
    rewrite lookup_app_r by lia.
    replace (_ + i - _) with i by lia.
    rewrite lookup_app_l.
    + by rewrite gpio_of_port_lookup, Hpin.
    + rewrite gpio_of_port_length. by apply lookup_lt_Some in Hpin.
  - done.
  - intros Hw. unfold t_port, tuple_at. simpl.
    rewrite decide_False by lia. done.
  - intros Hw. unfold t_port, tuple_at. simpl.
    by rewrite decide_True.
Qed.

Lemma port_signal_names_witness :
  ∃ t, iter_gpio_constraints (ex_platform None []) !! 3 = Some t
       ∧ t_pin t = "B3"
       ∧ (1 < width (ex_platform None []) ex_data_port → t_port t = "data[2]")
       ∧ (width (ex_platform None []) ex_data_port = 1 → t_port t = "data").
Proof.
  apply (port_signal_names (ex_platform None []) [ex_led_port; ex_nc_port] []
           ex_data_port 2 "B3"); reflexivity.
Defined.

(** The scenarios of the specification, evaluated. *)

Example scalar_output_scenario :
  (λ t, (t_pin t, t_port t, t_direction t,
         map_to_list (t_out_attrs t)))
    <$> gpio_of_port (ex_platform None []) ex_led_port
  = [("A3", "led", "output",
      [("clock_name", "clk"); ("drive_strength", "4mA")])].
Proof. vm_compute. reflexivity. Qed.

Example bus_scenario :
  (λ t, (t_pin t, t_port t, t_direction t, map_to_list (t_in_attrs t)))
    <$> gpio_of_port (ex_platform None []) ex_data_port
  = [("B1", "data[0]", "inout", [("conn_type", "normal")]);
     ("B2", "data[1]", "inout", [("conn_type", "normal")]);
     ("B3", "data[2]", "inout", [("conn_type", "normal")]);
     ("B4", "data[3]", "inout", [("conn_type", "normal")])].
Proof. vm_compute. reflexivity. Qed.

Example unknown_attribute_dropped :
  let b := _generate_efinix_attrs ex_led ex_attrs in
  b_pin b !! "bogus" = None ∧ b_in b !! "bogus" = None
  ∧ b_out b !! "bogus" = None ∧ b_oe b !! "bogus" = None
  ∧ b_in b !! "clock_name" = Some "clk" ∧ b_out b !! "clock_name" = Some "clk".
Proof. vm_compute. repeat split. Qed.

(** ** The pin-constraint file *)

Lemma gpio_entries_peri_xml name self :
  gpio_entries (peri_xml name self) = peri_gpio <$> iter_gpio_constraints self.
Proof.
  unfold gpio_entries, peri_xml, blocks at 2. simpl.
  rewrite app_nil_r. unfold blocks. simpl. rewrite filter_app. simpl.
  rewrite app_nil_r.
  induction (iter_gpio_constraints self) as [|t ts IH]; [done|].
  rewrite fmap_cons, filter_cons_True, IH; [done|].
  by destruct t as [[[[[[[? ?] ?] ?] ?] ?] ?] ?].
Qed.

(** [direction in (a, b)] *)
Lemma in_two_modes (direction a b : string) (yes no : list Xml) :
  (if decide (direction ∈ [a; b]) then yes else no) =
  (if decide (direction = a ∨ direction = b) then yes else no).
Proof.
  apply decide_ext. by rewrite elem_of_cons, list_elem_of_singleton.
Qed.

(** C5. Every tuple of the enumerator is rendered as one [efxpt:gpio] entry
    of the pin-constraint file, in order, with the pin-level bucket as
    fields of the entry. The entry has an
    [efxpt:input_config] block iff the mode is ["input"] or ["inout"], an
    [efxpt:output_config] block iff it is ["output"] or ["inout"], and an
    [efxpt:output_enable_config] block iff it is ["inout"]; a block that is
    present is single and carries a name followed by the entries of the
    corresponding bucket of the tuple. *)
Theorem peri_blocks_by_mode (name : string) (self : Platform) (t : GpioTuple) :
  gpio_entries (peri_xml name self) = peri_gpio <$> iter_gpio_constraints self
  ∧ xml_fields (peri_gpio t) =
      [("name", t_port t); ("gpio_def", t_pin t); ("mode", t_direction t)]
        ++ map_to_list (t_bit_attrs t)
  ∧ blocks "efxpt:input_config" (peri_gpio t) =
      (if decide (t_direction t = "input" ∨ t_direction t = "inout")
       then [Element "efxpt:input_config"
               (("name", t_port t) :: map_to_list (t_in_attrs t)) []]
       else [])
  ∧ blocks "efxpt:output_config" (peri_gpio t) =
      (if decide (t_direction t = "output" ∨ t_direction t = "inout")
       then [Element "efxpt:output_config"
               (("name", t_port t) :: map_to_list (t_out_attrs t)) []]
       else [])
  ∧ blocks "efxpt:output_enable_config" (peri_gpio t) =
      (if decide (t_direction t = "inout")
       then [Element "efxpt:output_enable_config"
               (("name", t_pin t) :: map_to_list (t_oe_attrs t)) []]
       else []).
Proof.
  split; [apply gpio_entries_peri_xml|].
  destruct t as [[[[[[[pin port] direction] lvds] bit_a] in_a] out_a] oe_a].
  unfold t_direction, t_port, t_pin, t_bit_attrs, t_in_attrs, t_out_attrs,
    t_oe_attrs, peri_gpio, blocks, items_fields. simpl.
  rewrite !filter_app, !in_two_modes. split_and!.
  all: by repeat case_decide.
Qed.

(** C10. The output-enable bucket the classifier returns is empty for every
    resource and attribute mapping, so every tuple of the enumerator has an
    empty output-enable bucket and every [efxpt:output_enable_config] block
    of the pin-constraint file carries its name and nothing else. *)
Theorem oe_bucket_empty (res : Resource) (attrs : Attrs) (name : string) (self : Platform) :
  b_oe (_generate_efinix_attrs res attrs) = ∅
  ∧ Forall (λ t, t_oe_attrs t = ∅) (iter_gpio_constraints self)
  ∧ Forall (λ entry,
       Forall (λ block, ∃ n, block = Element "efxpt:output_enable_config" [("name", n)] [])
              (blocks "efxpt:output_enable_config" entry))
      (gpio_entries (peri_xml name self)).
Proof.
  assert (Forall (λ t, t_oe_attrs t = ∅) (iter_gpio_constraints self)) as Hoe.
  { unfold iter_gpio_constraints. apply Forall_bind, Forall_forall.
    intros p _. simpl. rewrite gpio_of_port_imap. apply Forall_forall.
    intros t [i [pin [-> _]]]%elem_of_lookup_imap. apply generated_oe. }
  split_and!; [apply generated_oe|done|].
  rewrite gpio_entries_peri_xml. apply Forall_fmap.
  eapply Forall_impl; [exact Hoe|]. intros t Ht. simpl.
  destruct t as [[[[[[[pin port] direction] lvds] bit_a] in_a] out_a] oe_a].
  unfold t_oe_attrs in Ht; simpl in Ht; subst oe_a.
  unfold peri_gpio, blocks, items_fields. simpl. rewrite !filter_app.
  rewrite map_to_list_empty.
  repeat case_decide; simpl; repeat constructor; by eexists.
Qed.

(** ** The timing-constraint file *)

Lemma sdc_clocks_bound_nonzero self (cs : list ClockConstraint) :
  Forall (λ c, is_Some (port_signal c) → frequency c ≠ Q2Qc 0) cs →
  sdc_clocks self cs = inr (omap (clock_line self) cs).
Proof.
  induction 1 as [|c cs Hc _ IH]; [done|].
  simpl. unfold clock_line at 1. destruct (port_signal c) as [port_name|]; simpl.
  - unfold period_of. rewrite decide_False by eauto. simpl. by rewrite IH.
  - done.
Qed.

(** C6, as amended. For every sequence of clock constraints in which each
    constraint with a bound port signal has a frequency other than zero,
    the timing-constraint file is rendered and holds, after its header
    comment, exactly one [create_clock] line per constraint with a bound
    port signal, in input order, with period 100000000 divided by the
    frequency and the escaped name of the port signal; a constraint whose
    port signal is [None] gives no line. *)
Theorem sdc_create_clock_lines (autogenerated : string) (self : Platform) :
  Forall (λ c, is_Some (port_signal c) → frequency c ≠ Q2Qc 0)
         (iter_clock_constraints self) →
  sdc_file autogenerated self =
    inr (sdc_comment autogenerated
           :: omap (clock_line self) (iter_clock_constraints self)).
Proof.
  intros Hok. unfold sdc_file. by rewrite sdc_clocks_bound_nonzero.
Qed.

Lemma sdc_create_clock_lines_witness :
  sdc_file "generated" (ex_platform None [ex_clk12; ex_internal]) =
    inr [sdc_comment "generated";
         create_clock (Qc_of_Z 100000000 / Qc_of_Z 12000000)%Qc "clk12"].
Proof.
  apply (sdc_create_clock_lines "generated"
           (ex_platform None [ex_clk12; ex_internal])).
  apply (bool_decide_unpack _). vm_compute. exact I.
Defined.

(** C6 as stated fails on a constraint with a bound port signal and
    frequency zero: the division in the template raises and no file is
    rendered, although the claim asks for one line. *)
Lemma sdc_zero_frequency_raises :
  port_signal <$> iter_clock_constraints (ex_platform None [ex_stopped]) = [Some "clk"]
  ∧ sdc_file "generated" (ex_platform None [ex_stopped]) = inl ZeroDivisionError.
Proof. split; reflexivity. Qed.

(** ** The toolchain pipeline *)

Section Driver.
Context {W : Type} (exec : Command → W → Z * W).











End Driver.





(** ** The wrapper script *)

Lemma dict_copy_ok (h : Heap) d (m : Env) :
  h !! d = Some m → dict_copy d h = (inr (length h), h ++ [m]).
Proof. intros Hd. unfold dict_copy. by rewrite Hd. Qed.

Lemma dict_setitem_fresh (h : Heap) (m : Env) key value :
  dict_setitem (length h) key value (h ++ [m]) =
  (inr (), h ++ [<[key := value]> m]).
Proof.
  unfold dict_setitem. rewrite lookup_app_r, Nat.sub_diag by lia. simpl.
  rewrite insert_app_r_alt, Nat.sub_diag by lia. done.
Qed.

Lemma dict_read_fresh (h : Heap) (m : Env) :
  dict_read (length h) (h ++ [m]) = (inr m, h ++ [m]).
Proof.
  unfold dict_read. by rewrite lookup_app_r, Nat.sub_diag by lia.
Qed.

Lemma py_bind_unfold {A B} (m : Py A) (k : A → Py B) (h : Heap) :
  (m ≫= k) h =
  match m h with
  | (inl e, h1) => (inl e, h1)
  | (inr a, h1) => k a h1
  end.
Proof. done. Qed.

(** The outcome of the script, case by case. *)
Lemma run_platform_tool_outcome (os : OsModule) (sys_argv : list string) (h : Heap) :
  run_platform_tool os sys_argv h =
  match h !! os_environ with
  | None => (inl IndexError, h)
  | Some E =>
      match E !! "EFINITY_HOME" with
      | None => (inl (KeyError "EFINITY_HOME"), h)
      | Some home =>
          match glob_glob os (path_join os [home; "python*"]) !! 0 with
          | None => (inl IndexError, h)
          | Some pyhome =>
              match sys_argv !! 1 with
              | None => (inl IndexError, h ++ [target_env_of os home pyhome E])
              | Some script =>
                  (inr {| spawn_args :=
                            [path_join os [pyhome; "bin"; "python"];
                             path_join os [home; script]] ++ drop 2 sys_argv;
                          spawn_env := target_env_of os home pyhome E |},
                   h ++ [target_env_of os home pyhome E])
              end
          end
      end
  end.
Proof.
  unfold run_platform_tool, target_env_of. rewrite py_bind_unfold.
  unfold dict_getitem at 1.
  destruct (h !! os_environ) as [E|] eqn:HE; [|done].
  destruct (E !! "EFINITY_HOME") as [home|]; [|done].
  rewrite py_bind_unfold. unfold list_getitem at 1.
  destruct (glob_glob os (path_join os [home; "python*"]) !! 0) as [pyhome|];
    [|done].
  simpl. rewrite py_bind_unfold, (dict_copy_ok _ _ _ HE).
  repeat (rewrite py_bind_unfold, dict_setitem_fresh).
  rewrite py_bind_unfold. unfold list_getitem.
  destruct (sys_argv !! 1) as [script|]; [|done].
  simpl. rewrite py_bind_unfold, dict_read_fresh. done.
Qed.

(** C8. Whatever the outcome of the wrapper script, the dictionary behind
    [os.environ], and every other object that existed before, is as it was:
    the script only adds one new dictionary. When [EFINITY_HOME] is set, the
    interpreter directory is found and the script has its argument, the
    environment handed to the child process is that new dictionary: the
    entries of [os.environ] with [PYTHONHOME], [EFXPT_HOME], [EFXPGM_HOME]
    and [EFXDBG_HOME] overridden by paths under the value of
    [EFINITY_HOME]. *)
Theorem wrapper_environment (os : OsModule) (sys_argv : list string) (h : Heap) :
  (run_platform_tool os sys_argv h).2 !! os_environ = h !! os_environ
  ∧ h `prefix_of` (run_platform_tool os sys_argv h).2
  ∧ ∀ E home pyhome others script,
      h !! os_environ = Some E →
      E !! "EFINITY_HOME" = Some home →
      glob_glob os (path_join os [home; "python*"]) = pyhome :: others →
      sys_argv !! 1 = Some script →
      run_platform_tool os sys_argv h =
        (inr {| spawn_args :=
                  [path_join os [pyhome; "bin"; "python"];
                   path_join os [home; script]] ++ drop 2 sys_argv;
                spawn_env :=
                  <["EFXDBG_HOME" := path_join os [home; "debugger"]]>
                    (<["EFXPGM_HOME" := path_join os [home; "pgm"]]>
                       (<["EFXPT_HOME" := path_join os [home; "pt"]]>
                          (<["PYTHONHOME" := pyhome]> E))) |},
         h ++ [target_env_of os home pyhome E]).
Proof.
  assert (∃ fresh, (run_platform_tool os sys_argv h).2 = h ++ fresh) as [fresh Hfresh].
  { rewrite run_platform_tool_outcome.
    repeat case_match; simpl; (by exists []; rewrite app_nil_r) || by eexists. }
  split_and!.
  - rewrite Hfresh. destruct (h !! os_environ) as [E|] eqn:HE.
    + by apply lookup_app_l_Some.
    + rewrite run_platform_tool_outcome, HE in Hfresh. simpl in Hfresh.
      by rewrite <- Hfresh.
  - by exists fresh.
  - intros E home pyhome others script HE Hhome Hglob Hargv.
    rewrite run_platform_tool_outcome, HE, Hhome, Hglob, Hargv. done.
Qed.

Lemma wrapper_environment_witness :
  run_platform_tool ex_os
      ["run_platform_tool.py"; "scripts/efx_run_pt.py"; "top"; "Trion"; "T8F81"]
      [ex_environ] =
    (inr {| spawn_args :=
              ["/opt/efinity/python38/bin/python";
               "/opt/efinity/scripts/efx_run_pt.py"; "top"; "Trion"; "T8F81"];
            spawn_env :=
              <["EFXDBG_HOME" := "/opt/efinity/debugger"]>
                (<["EFXPGM_HOME" := "/opt/efinity/pgm"]>
                   (<["EFXPT_HOME" := "/opt/efinity/pt"]>
                      (<["PYTHONHOME" := "/opt/efinity/python38"]> ex_environ))) |},
     [ex_environ; target_env_of ex_os "/opt/efinity" "/opt/efinity/python38" ex_environ]).
Proof.
  apply (proj2 (proj2 (wrapper_environment ex_os
           ["run_platform_tool.py"; "scripts/efx_run_pt.py"; "top"; "Trion"; "T8F81"]
           [ex_environ])) ex_environ "/opt/efinity" "/opt/efinity/python38" []
           "scripts/efx_run_pt.py"); reflexivity.
Defined.

(** ** The clock-domain fallback *)

(** C9. On a platform whose [default_clk] is ["oscint"] and whose device is
    ["T4"] or ["T8"], [create_missing_domain("sync")] raises
    [NotImplementedError]; it returns no module. *)
Theorem oscint_not_supported (self : Platform) :
  default_clk self = Some "oscint" →
  device self = "T4" ∨ device self = "T8" →
  create_missing_domain self "sync" = inl NotImplementedError.
Proof.
  intros Hclk Hdev. unfold create_missing_domain.
  rewrite decide_True by done. rewrite Hclk.
  rewrite decide_True; [done|].
  split; [done|]. destruct Hdev as [-> | ->]; set_solver.
Qed.

Lemma oscint_not_supported_witness :
  create_missing_domain (ex_platform (Some "oscint") []) "sync" =
    inl NotImplementedError.
Proof.
  apply (oscint_not_supported (ex_platform (Some "oscint") [])).
  - reflexivity.
  - right. reflexivity.
Defined.

(** * Further properties *)

(** Closes a goal that is a closed decidable proposition. *)
Ltac by_evaluation := apply (bool_decide_unpack _); vm_compute; exact I.

(** ** More on the classifier *)

Lemma lookup_filter_listed (TABLE : list string) (attrs : Attrs) name :
  filter (listed TABLE) attrs !! name =
  if decide (name ∈ TABLE) then attrs !! name else None.
Proof.
  apply option_eq. intros value. rewrite lookup_listed.
  case_decide; split; try done; by intros [? ?].
Qed.

Lemma lookup_generated_pin res attrs name :
  b_pin (_generate_efinix_attrs res attrs) !! name =
  if decide (name ∈ PIN_ATTRS) then attrs !! name else None.
Proof. by rewrite generated_pin, lookup_filter_listed. Qed.

Lemma lookup_generated_out res attrs name :
  b_out (_generate_efinix_attrs res attrs) !! name =
  if decide (name ∈ OUTPUT_ATTRS) then attrs !! name else None.
Proof. by rewrite generated_out, lookup_filter_listed. Qed.

Lemma lookup_generated_in res attrs name :
  b_in (_generate_efinix_attrs res attrs) !! name =
  match (if decide (name ∈ INPUT_ATTRS) then attrs !! name else None) with
  | Some value => Some value
  | None =>
      if decide (name = "conn_type")
      then Some (if clock res then "gclk" else "normal")
      else None
  end.
Proof.
  by rewrite generated_in, lookup_default_conn_type, lookup_filter_listed.
Qed.

Ltac table_cases :=
  pose proof conn_type_listed;
  repeat (case_decide || case_match); simplify_eq; try done.

(** X1. Setting an attribute in the mapping before classifying is the same
    as setting it, after classifying, in each bucket whose table lists its
    name, and changes no other bucket; so an attribute whose name no table
    lists changes nothing. *)
Theorem classifier_insert (res : Resource) (attrs : Attrs) (name value : string) :
  b_pin (_generate_efinix_attrs res (<[name := value]> attrs)) =
    (if decide (name ∈ PIN_ATTRS)
     then <[name := value]> (b_pin (_generate_efinix_attrs res attrs))
     else b_pin (_generate_efinix_attrs res attrs))
  ∧ b_in (_generate_efinix_attrs res (<[name := value]> attrs)) =
      (if decide (name ∈ INPUT_ATTRS)
       then <[name := value]> (b_in (_generate_efinix_attrs res attrs))
       else b_in (_generate_efinix_attrs res attrs))
  ∧ b_out (_generate_efinix_attrs res (<[name := value]> attrs)) =
      (if decide (name ∈ OUTPUT_ATTRS)
       then <[name := value]> (b_out (_generate_efinix_attrs res attrs))
       else b_out (_generate_efinix_attrs res attrs))
  ∧ b_oe (_generate_efinix_attrs res (<[name := value]> attrs)) =
      b_oe (_generate_efinix_attrs res attrs).
Proof.
  split_and!; [| | |by rewrite !generated_oe].
  all: apply map_eq; intros k; destruct (decide (k = name)) as [->|Hk].
  all: case_decide; rewrite ?lookup_insert_eq, ?lookup_insert_ne by done.
  all: rewrite ?lookup_generated_pin, ?lookup_generated_in,
         ?lookup_generated_out.
  all: rewrite ?lookup_insert_eq, ?lookup_insert_ne by done.
  all: table_cases.
Qed.

Lemma size_keys_in_table (TABLE : list string) (d : Attrs) :
  (∀ name, is_Some (d !! name) → name ∈ TABLE) →
  (size d ≤ length TABLE)%nat.
Proof.
  intros Hkeys. rewrite <- size_dom.
  transitivity (size (list_to_set TABLE : gset string)).
  - apply subseteq_size. intros k Hk%elem_of_dom.
    by apply elem_of_list_to_set, Hkeys.
  - clear. induction TABLE as [|t T IH].
    + by rewrite list_to_set_nil, size_empty.
    + rewrite list_to_set_cons, size_union_alt, size_singleton. simpl.
      assert (list_to_set T ∖ {[t]} ⊆ (list_to_set T : gset string)) as Hsub.
      { by intros x [Hx _]%elem_of_difference. }
      apply subseteq_size in Hsub. lia.
Qed.

Lemma generated_pin_keys res attrs name :
  is_Some (b_pin (_generate_efinix_attrs res attrs) !! name) → name ∈ PIN_ATTRS.
Proof. intros [v Hv]. rewrite lookup_generated_pin in Hv. by case_decide. Qed.

Lemma generated_in_keys res attrs name :
  is_Some (b_in (_generate_efinix_attrs res attrs) !! name) → name ∈ INPUT_ATTRS.
Proof. intros [v Hv]. rewrite lookup_generated_in in Hv. table_cases. Qed.

Lemma generated_out_keys res attrs name :
  is_Some (b_out (_generate_efinix_attrs res attrs) !! name) → name ∈ OUTPUT_ATTRS.
Proof. intros [v Hv]. rewrite lookup_generated_out in Hv. by case_decide. Qed.

(** X2. Every key of the pin, input and output bucket is listed in the
    bucket's table, so the pin bucket has at most 1 entry, the input bucket
    between 1 and 7 and the output bucket at most 6, however large the
    mapping is. *)
Theorem bucket_bounds (res : Resource) (attrs : Attrs) :
  (∀ name, is_Some (b_pin (_generate_efinix_attrs res attrs) !! name) →
           name ∈ PIN_ATTRS)
  ∧ (∀ name, is_Some (b_in (_generate_efinix_attrs res attrs) !! name) →
             name ∈ INPUT_ATTRS)
  ∧ (∀ name, is_Some (b_out (_generate_efinix_attrs res attrs) !! name) →
             name ∈ OUTPUT_ATTRS)
  ∧ (size (b_pin (_generate_efinix_attrs res attrs)) ≤ 1)%nat
  ∧ (1 ≤ size (b_in (_generate_efinix_attrs res attrs)) ≤ 7)%nat
  ∧ (size (b_out (_generate_efinix_attrs res attrs)) ≤ 6)%nat.
Proof.
  split_and!.
  - apply generated_pin_keys.
  - apply generated_in_keys.
  - apply generated_out_keys.
  - apply (size_keys_in_table PIN_ATTRS), generated_pin_keys.
  - destruct (size (b_in (_generate_efinix_attrs res attrs))) eqn:Hsize; [|lia].
    apply map_size_empty_inv in Hsize.
    pose proof (lookup_generated_in res attrs "conn_type") as Hl.
    rewrite Hsize, lookup_empty in Hl. table_cases.
  - apply (size_keys_in_table INPUT_ATTRS), generated_in_keys.
  - apply (size_keys_in_table OUTPUT_ATTRS), generated_out_keys.
Qed.

Lemma pin_table_apart name :
  name ∈ PIN_ATTRS → (name ∉ INPUT_ATTRS) ∧ (name ∉ OUTPUT_ATTRS).
Proof.
  unfold PIN_ATTRS. intros ->%list_elem_of_singleton.
  split; by_evaluation.
Qed.

(** X3. Classifying a bucket again, for any resource, gives the same bucket
    back in its own position: the classifier is idempotent on its results.
    Nothing of the input or output bucket classifies as a pin attribute, and
    nothing of the pin bucket as an output attribute. *)
Theorem classifier_idempotent (res res' : Resource) (attrs : Attrs) :
  b_pin (_generate_efinix_attrs res' (b_pin (_generate_efinix_attrs res attrs)))
    = b_pin (_generate_efinix_attrs res attrs)
  ∧ b_in (_generate_efinix_attrs res' (b_in (_generate_efinix_attrs res attrs)))
    = b_in (_generate_efinix_attrs res attrs)
  ∧ b_out (_generate_efinix_attrs res' (b_out (_generate_efinix_attrs res attrs)))
    = b_out (_generate_efinix_attrs res attrs)
  ∧ b_pin (_generate_efinix_attrs res' (b_in (_generate_efinix_attrs res attrs))) = ∅
  ∧ b_pin (_generate_efinix_attrs res' (b_out (_generate_efinix_attrs res attrs))) = ∅
  ∧ b_out (_generate_efinix_attrs res' (b_pin (_generate_efinix_attrs res attrs))) = ∅.
Proof.
  split_and!; apply map_eq; intros k; rewrite ?lookup_empty.
  all: rewrite ?lookup_generated_pin, ?lookup_generated_in,
         ?lookup_generated_out; table_cases.
  all: rewrite ?lookup_generated_pin, ?lookup_generated_in,
         ?lookup_generated_out; table_cases.
  all: repeat match goal with
              | H : _ ∈ PIN_ATTRS |- _ => apply pin_table_apart in H as [? ?]
              end; done.
Qed.

(** X4. Nothing that a table lists is lost: the pin, input and output
    buckets together are exactly the entries of the mapping whose name some
    table lists, with the [conn_type] default added when the mapping has no
    [conn_type]. *)
Theorem buckets_cover_known (res : Resource) (attrs : Attrs) :
  b_pin (_generate_efinix_attrs res attrs)
    ∪ b_in (_generate_efinix_attrs res attrs)
    ∪ b_out (_generate_efinix_attrs res attrs)
  = filter (listed KNOWN_ATTRS) attrs ∪ {["conn_type" := conn_type_default res]}.
Proof.
  apply map_eq. intros k. rewrite !lookup_union.
  rewrite lookup_generated_pin, lookup_generated_in, lookup_generated_out.
  rewrite lookup_filter_listed. unfold conn_type_default.
  assert (k ∈ KNOWN_ATTRS ↔ k ∈ PIN_ATTRS ∨ k ∈ INPUT_ATTRS ∨ k ∈ OUTPUT_ATTRS)
    as Hknown.
  { unfold KNOWN_ATTRS, OE_ATTRS. rewrite !elem_of_app, elem_of_nil. tauto. }
  destruct (decide (k = "conn_type")) as [->|Hk].
  - rewrite lookup_singleton_eq. table_cases; tauto.
  - rewrite lookup_singleton_ne by done.
    destruct (attrs !! k); table_cases; tauto.
Qed.


(** ** More on the direction mapper and the enumerator *)

(** X5. The direction mapper only returns ["inout"], ["output"], ["input"]
    or ["none"], and each of them for exactly these directions: ["inout"]
    for ["oe"] and ["io"], ["output"] for ["o"], ["input"] for ["i"], and
    ["none"] for every other text. *)
Theorem direction_cases (res : Resource) :
  _direction_from_resource res ∈ ["inout"; "output"; "input"; "none"]
  ∧ (_direction_from_resource res = "inout" ↔
       ios0_dir res = "oe" ∨ ios0_dir res = "io")
  ∧ (_direction_from_resource res = "output" ↔ ios0_dir res = "o")
  ∧ (_direction_from_resource res = "input" ↔ ios0_dir res = "i")
  ∧ (_direction_from_resource res = "none" ↔
       ios0_dir res ∉ ["oe"; "io"; "o"; "i"]).
Proof.
  unfold _direction_from_resource. generalize (ios0_dir res). intros dir.
  assert (∀ x a b c d : string, x ∈ [a; b; c; d] ↔ x = a ∨ x = b ∨ x = c ∨ x = d)
    as Hfour.
  { intros. rewrite !elem_of_cons, elem_of_nil. tauto. }
  assert (dir ∈ ["oe"; "io"] ↔ dir = "oe" ∨ dir = "io") as Htwo.
  { rewrite !elem_of_cons, elem_of_nil. tauto. }
  rewrite !Hfour.
  destruct (decide (dir ∈ ["oe"; "io"])) as [Hio|Hio]; rewrite Htwo in Hio.
  - split_and!; [tauto|tauto|..]; (split; [done|]);
      destruct Hio; intuition congruence.
  - destruct (decide (dir = "o")) as [->|Ho];
      [|destruct (decide (dir = "i")) as [->|Hi]].
    + split_and!; [tauto|..]; (split; [done|]); intuition congruence.
    + split_and!; [tauto|..]; (split; [done|]); intuition congruence.
    + split_and!; [tauto|..]; try (split; [done|]); tauto.
Qed.

Lemma string_app_cons a (s t : string) :
  String a s +:+ t = String a (s +:+ t).
Proof. done. Qed.

Lemma string_length_app (s t : string) :
  String.length (s +:+ t) = (String.length s + String.length t)%nat.
Proof.
  induction s as [|a s IH]; [done|].
  rewrite string_app_cons. simpl. by rewrite IH.
Qed.

(** Appending the same text on the right is injective. *)
Lemma string_app_inj_r (s1 s2 t : string) :
  s1 +:+ t = s2 +:+ t → s1 = s2.
Proof.
  revert s2. induction s1 as [|a s1 IH]; intros [|b s2] Heq.
  - done.
  - apply (f_equal String.length) in Heq.
    rewrite !string_length_app in Heq. simpl in Heq. lia.
  - apply (f_equal String.length) in Heq.
    rewrite !string_length_app in Heq. simpl in Heq. lia.
  - rewrite !string_app_cons in Heq. injection Heq as -> Heq.
    f_equal. by apply IH.
Qed.

Lemma indexed_name_inj name i j :
  indexed_name name i = indexed_name name j → i = j.
Proof.
  unfold indexed_name. intros Heq.
  apply (inj (String.app name)) in Heq.
  apply (inj (String.app "[")) in Heq.
  apply string_app_inj_r in Heq. by apply (inj pretty) in Heq.
Qed.

(** X6. The port signal names of the tuples of one binding are pairwise
    distinct, whatever the resolved pin names are. *)
Theorem port_names_distinct (self : Platform) (p : PortBinding) :
  NoDup (t_port <$> gpio_of_port self p).
Proof.
  rewrite gpio_of_port_imap.
  destruct (decide (width self p = 1)) as [Hw|Hw].
  - unfold width in Hw.
    destruct (map_names self (pb_res p)) as [|pin [|pin' pins]]; try done.
    simpl. apply NoDup_singleton.
  - apply NoDup_alt. intros i j name.
    rewrite !list_lookup_fmap, !list_lookup_imap.
    destruct (map_names self (pb_res p) !! i) as [pi|]; [|done].
    destruct (map_names self (pb_res p) !! j) as [pj|]; [|done].
    unfold t_port, tuple_at. simpl. rewrite !decide_False by done.
    intros [= <-] [= Heq]. symmetry. by apply indexed_name_inj in Heq.
Qed.

(** X7. All tuples of one binding carry the same mode, the same
    differential flag and the same four buckets: those of the binding's
    resource and attribute mapping, classified once. *)
Theorem tuples_share_attributes (self : Platform) (p : PortBinding) :
  Forall (λ t,
      t_direction t = _direction_from_resource (pb_res p)
      ∧ t_is_differential t = ios0_is_DiffPairs (pb_res p)
      ∧ t_bit_attrs t = b_pin (_generate_efinix_attrs (pb_res p) (pb_attrs p))
      ∧ t_in_attrs t = b_in (_generate_efinix_attrs (pb_res p) (pb_attrs p))
      ∧ t_out_attrs t = b_out (_generate_efinix_attrs (pb_res p) (pb_attrs p))
      ∧ t_oe_attrs t = b_oe (_generate_efinix_attrs (pb_res p) (pb_attrs p)))
    (gpio_of_port self p).
Proof.
  rewrite gpio_of_port_imap. apply Forall_forall.
  by intros t [i [pin [-> _]]]%elem_of_lookup_imap.
Qed.

Lemma iter_gpio_constraints_Forall (P : GpioTuple → Prop) (self : Platform) :
  (∀ p i pin, P (tuple_at self p i pin)) →
  Forall P (iter_gpio_constraints self).
Proof.
  intros HP. unfold iter_gpio_constraints. apply Forall_bind, Forall_forall.
  intros p _. simpl. rewrite gpio_of_port_imap. apply Forall_forall.
  intros t [i [pin [-> _]]]%elem_of_lookup_imap. apply HP.
Qed.

(** ** More on the pin-constraint file *)

Lemma peri_gpio_block_counts (t : GpioTuple) :
  length (blocks "efxpt:input_config" (peri_gpio t)) =
    (if decide (t_direction t ∈ ["input"; "inout"]) then 1 else 0)
  ∧ length (blocks "efxpt:output_config" (peri_gpio t)) =
    (if decide (t_direction t ∈ ["output"; "inout"]) then 1 else 0)
  ∧ length (blocks "efxpt:output_enable_config" (peri_gpio t)) =
    (if decide (t_direction t = "inout") then 1 else 0).
Proof.
  destruct t as [[[[[[[pin port] direction] lvds] bit_a] in_a] out_a] oe_a].
  unfold t_direction, peri_gpio, blocks. simpl. rewrite !filter_app.
  split_and!; by repeat case_decide.
Qed.

Lemma elem_of_list2 (x a b : string) : x ∈ [a; b] ↔ x = a ∨ x = b.
Proof. rewrite !elem_of_cons, elem_of_nil. tauto. Qed.

Lemma elem_of_list3 (x a b c : string) :
  x ∈ [a; b; c] ↔ x = a ∨ x = b ∨ x = c.
Proof. rewrite !elem_of_cons, elem_of_nil. tauto. Qed.

Lemma direction_modes (res : Resource) :
  (_direction_from_resource res ∈ ["input"; "inout"] ↔
     ios0_dir res ∈ ["i"; "io"; "oe"])
  ∧ (_direction_from_resource res ∈ ["output"; "inout"] ↔
       ios0_dir res ∈ ["o"; "io"; "oe"])
  ∧ (_direction_from_resource res = "inout" ↔ ios0_dir res ∈ ["io"; "oe"]).
Proof.
  unfold _direction_from_resource. generalize (ios0_dir res). intros dir.
  destruct (decide (dir = "oe")) as [->|Hoe]; [by_evaluation|].
  destruct (decide (dir = "io")) as [->|Hio]; [by_evaluation|].
  destruct (decide (dir = "o")) as [->|Ho]; [by_evaluation|].
  destruct (decide (dir = "i")) as [->|Hi]; [by_evaluation|].
  rewrite (decide_False (P := dir ∈ ["oe"; "io"]))
    by (rewrite elem_of_list2; intuition congruence).
  split_and!; split; intros H; exfalso.
  all: try (revert H; by_evaluation).
  all: rewrite ?elem_of_list3, ?elem_of_list2 in H; intuition congruence.
Qed.

(** X8. In the pin-constraint file an entry of a resource has exactly one
    input block when the direction of the resource is ["i"], ["io"] or
    ["oe"] and none otherwise, exactly one output block when it is ["o"],
    ["io"] or ["oe"] and none otherwise, and exactly one output-enable block
    when it is ["io"] or ["oe"] and none otherwise. *)
Theorem blocks_by_resource_direction (self : Platform) (p : PortBinding) :
  Forall (λ t,
      length (blocks "efxpt:input_config" (peri_gpio t)) =
        (if decide (ios0_dir (pb_res p) ∈ ["i"; "io"; "oe"]) then 1 else 0)
      ∧ length (blocks "efxpt:output_config" (peri_gpio t)) =
        (if decide (ios0_dir (pb_res p) ∈ ["o"; "io"; "oe"]) then 1 else 0)
      ∧ length (blocks "efxpt:output_enable_config" (peri_gpio t)) =
        (if decide (ios0_dir (pb_res p) ∈ ["io"; "oe"]) then 1 else 0))
    (gpio_of_port self p).
Proof.
  rewrite gpio_of_port_imap. apply Forall_forall.
  intros t [i [pin [-> _]]]%elem_of_lookup_imap.
  destruct (peri_gpio_block_counts (tuple_at self p i pin)) as (-> & -> & ->).
  destruct (direction_modes (pb_res p)) as (Hin & Hout & Hoe).
  change (t_direction (tuple_at self p i pin))
    with (_direction_from_resource (pb_res p)).
  split_and!; by apply decide_ext.
Qed.

Lemma tuple_in_attrs_conn_type self p i pin :
  t_in_attrs (tuple_at self p i pin) !! "conn_type" =
  Some (default (conn_type_default (pb_res p)) (pb_attrs p !! "conn_type")).
Proof.
  change (t_in_attrs (tuple_at self p i pin))
    with (b_in (_generate_efinix_attrs (pb_res p) (pb_attrs p))).
  unfold conn_type_default.
  rewrite lookup_generated_in. rewrite decide_True by apply conn_type_listed.
  by destruct (pb_attrs p !! "conn_type").
Qed.

Lemma input_block_fields (t : GpioTuple) key value :
  t_in_attrs t !! key = Some value →
  Forall (λ block, (key, value) ∈ xml_fields block)
         (blocks "efxpt:input_config" (peri_gpio t)).
Proof.
  destruct t as [[[[[[[pin port] direction] lvds] bit_a] in_a] out_a] oe_a].
  unfold t_in_attrs. simpl. intros Hkey%elem_of_map_to_list.
  unfold peri_gpio, blocks, items_fields. simpl. rewrite !filter_app.
  repeat case_decide; simpl; repeat constructor; done.
Qed.

(** X9. Every input block of the pin-constraint file has a [conn_type]
    field, the attribute the classifier supplies because it is required. *)
Theorem input_blocks_have_conn_type (name : string) (self : Platform) :
  Forall (λ entry,
      Forall (λ block, ∃ value, ("conn_type", value) ∈ xml_fields block)
             (blocks "efxpt:input_config" entry))
    (gpio_entries (peri_xml name self)).
Proof.
  rewrite gpio_entries_peri_xml. apply Forall_fmap.
  apply iter_gpio_constraints_Forall. intros p i pin.
  unfold compose. eapply Forall_impl.
  - apply input_block_fields, tuple_in_attrs_conn_type.
  - intros block Hblock. eexists. exact Hblock.
Qed.

Lemma xml_field_gpio_def (t : GpioTuple) :
  xml_field "gpio_def" (peri_gpio t) = Some (t_pin t).
Proof.
  destruct t as [[[[[[[pin port] direction] lvds] bit_a] in_a] out_a] oe_a].
  unfold xml_field, peri_gpio, t_pin. simpl.
  rewrite lookup_insert_ne by done. by rewrite lookup_insert_eq.
Qed.

(** X10. The pin-constraint file has one [efxpt:gpio] entry per resolved
    physical pin: as many entries as the bindings have pins in total, their
    [gpio_def] fields being the resolved pins in binding order. *)
Theorem one_gpio_entry_per_pin (name : string) (self : Platform) :
  length (gpio_entries (peri_xml name self)) = sum_list (width self <$> _ports self)
  ∧ xml_field "gpio_def" <$> gpio_entries (peri_xml name self) =
      Some <$> (_ports self ≫= (λ p, map_names self (pb_res p))).
Proof.
  rewrite gpio_entries_peri_xml. split.
  - by rewrite length_fmap, iter_gpio_constraints_length.
  - rewrite <- list_fmap_compose.
    transitivity (Some ∘ t_pin <$> iter_gpio_constraints self).
    { apply list_fmap_ext. intros i t _. apply xml_field_gpio_def. }
    rewrite list_fmap_compose. f_equal.
    unfold iter_gpio_constraints.
    induction (_ports self) as [|p ps IH]; [done|].
    by rewrite !bind_cons, fmap_app, IH, gpio_of_port_pins.
Qed.

Lemma fields_distinct (fixed : list (string * string)) (TABLE : list string)
    (d : Attrs) :
  NoDup fixed.*1 →
  Forall (λ key, key ∉ TABLE) fixed.*1 →
  (∀ key, is_Some (d !! key) → key ∈ TABLE) →
  NoDup (fixed ++ items_fields d).*1.
Proof.
  intros Hfixed Hapart Hkeys. rewrite fmap_app. apply NoDup_app. split_and!.
  - done.
  - intros key Hkey [[k v] [-> Hin]]%list_elem_of_fmap.
    apply elem_of_map_to_list in Hin. rewrite Forall_forall in Hapart.
    eapply Hapart; [done|]. apply Hkeys. by eexists.
  - apply NoDup_fst_map_to_list.
Qed.

Lemma peri_gpio_fields_distinct (t : GpioTuple) :
  (∀ key, is_Some (t_bit_attrs t !! key) → key ∈ PIN_ATTRS) →
  (∀ key, is_Some (t_in_attrs t !! key) → key ∈ INPUT_ATTRS) →
  (∀ key, is_Some (t_out_attrs t !! key) → key ∈ OUTPUT_ATTRS) →
  (∀ key, is_Some (t_oe_attrs t !! key) → key ∈ OE_ATTRS) →
  NoDup (xml_fields (peri_gpio t)).*1
  ∧ Forall (λ block, NoDup (xml_fields block).*1) (xml_body (peri_gpio t)).
Proof.
  destruct t as [[[[[[[pin port] direction] lvds] bit_a] in_a] out_a] oe_a].
  unfold t_bit_attrs, t_in_attrs, t_out_attrs, t_oe_attrs. simpl.
  intros Hpin Hin Hout Hoe. split.
  - apply (fields_distinct
             [("name", port); ("gpio_def", pin); ("mode", direction)]
             PIN_ATTRS); [simpl; by_evaluation|simpl; by_evaluation|done].
  - repeat apply Forall_app_2;
      (case_decide; [apply Forall_singleton; simpl|apply Forall_nil_2]).
    + apply (fields_distinct [("name", port)] INPUT_ATTRS);
        [simpl; by_evaluation|simpl; by_evaluation|done].
    + apply (fields_distinct [("name", port)] OUTPUT_ATTRS);
        [simpl; by_evaluation|simpl; by_evaluation|done].
    + apply (fields_distinct [("name", pin)] OE_ATTRS);
        [simpl; by_evaluation|simpl; by_evaluation|done].
Qed.

(** X11. No element of a [efxpt:gpio] entry of the pin-constraint file has
    two fields of the same name: neither the entry, whose fixed fields are
    followed by the pin bucket, nor any of its blocks, whose name is
    followed by a bucket. *)
Theorem peri_fields_distinct (name : string) (self : Platform) :
  Forall (λ entry,
      NoDup (xml_fields entry).*1
      ∧ Forall (λ block, NoDup (xml_fields block).*1) (xml_body entry))
    (gpio_entries (peri_xml name self)).
Proof.
  rewrite gpio_entries_peri_xml. apply Forall_fmap.
  apply iter_gpio_constraints_Forall. intros p i pin. unfold compose.
  apply peri_gpio_fields_distinct.
  - apply generated_pin_keys.
  - apply generated_in_keys.
  - apply generated_out_keys.
  - intros key [v Hv].
    change (t_oe_attrs (tuple_at self p i pin))
      with (b_oe (_generate_efinix_attrs (pb_res p) (pb_attrs p))) in Hv.
    by rewrite generated_oe, lookup_empty in Hv.
Qed.

(** ** More on the timing-constraint file *)

Lemma sdc_clocks_zero self (cs : list ClockConstraint) :
  Exists (λ c, is_bound c ∧ frequency c = Q2Qc 0) cs →
  sdc_clocks self cs = inl ZeroDivisionError.
Proof.
  induction cs as [|c cs IH]; intros Hbad.
  - by apply Exists_nil in Hbad.
  - cbn [sdc_clocks]. unfold period_of.
    destruct (port_signal c) as [port_name|] eqn:Hport.
    + destruct (decide (frequency c = Q2Qc 0)) as [Hzero|Hzero]; [done|].
      rewrite IH; [done|].
      apply Exists_cons in Hbad as [[_ ?]|?]; done.
    + apply IH. apply Exists_cons in Hbad as [[[? Hsome] _]|?]; [|done].
      by rewrite Hport in Hsome.
Qed.

Lemma sdc_clocks_outcome self (cs : list ClockConstraint) :
  sdc_clocks self cs =
  if decide (Exists (λ c, is_bound c ∧ frequency c = Q2Qc 0) cs)
  then inl ZeroDivisionError
  else inr (omap (clock_line self) cs).
Proof.
  case_decide as Hbad.
  - by apply sdc_clocks_zero.
  - apply sdc_clocks_bound_nonzero. apply Forall_forall.
    intros c Hc Hbound Hzero. apply Hbad, Exists_exists. by exists c.
Qed.

Lemma clock_lines_length self (cs : list ClockConstraint) :
  length (omap (clock_line self) cs) = length (filter is_bound cs).
Proof.
  induction cs as [|c cs IH]; [done|].
  cbn [omap list_omap]. unfold clock_line at 1, is_bound.
  destruct (port_signal c) as [port_name|] eqn:Hport; simpl.
  - rewrite filter_cons_True by (unfold is_bound; rewrite Hport; eauto).
    simpl. by rewrite IH.
  - rewrite filter_cons_False; [done|].
    unfold is_bound. rewrite Hport. by intros [? [=]].
Qed.

(** X12. Rendering the timing-constraint file raises exactly when some
    constraint with a bound port signal has frequency zero, and then it
    raises [ZeroDivisionError]; a zero frequency on a constraint without a
    port signal does no harm. When it is rendered, the file has one line more
    than there are constraints with a bound port signal. *)
Theorem sdc_raises_on_zero_frequency (autogenerated : string) (self : Platform) :
  (sdc_file autogenerated self = inl ZeroDivisionError ↔
     Exists (λ c, is_bound c ∧ frequency c = Q2Qc 0) (iter_clock_constraints self))
  ∧ (∀ e, sdc_file autogenerated self = inl e → e = ZeroDivisionError)
  ∧ (∀ lines, sdc_file autogenerated self = inr lines →
       length lines = S (length (filter is_bound (iter_clock_constraints self)))).
Proof.
  unfold sdc_file. rewrite sdc_clocks_outcome.
  case_decide as Hzero; simpl; split_and!.
  - done.
  - by intros e [= <-].
  - done.
  - split; [done|]. by intros.
  - done.
  - intros lines [= <-]. simpl. by rewrite clock_lines_length.
Qed.

(** ** The project file, the generated files and the commands *)

Lemma design_file_blocks (self : Platform) (files : list string) :
  filter (λ c, xml_tag c = "efx:design_file")
         ((λ file, project_design_file (ascii_escape self file +:+ ".v")) <$> files)
  = (λ file, project_design_file (ascii_escape self file +:+ ".v")) <$> files.
Proof.
  induction files as [|file files IH]; [done|].
  rewrite fmap_cons, filter_cons_True by done. by rewrite IH.
Qed.

Lemma project_design_files_rendered (name : string) (self : Platform)
    (files : list string) :
  project_design_files (project_xml name self files) =
    (name +:+ ".v") :: ((λ file, ascii_escape self file +:+ ".v") <$> files).
Proof.
  unfold project_design_files, project_xml, blocks at 2. simpl.
  rewrite app_nil_r. unfold blocks. simpl.
  rewrite filter_app, design_file_blocks. simpl.
  rewrite app_nil_r. f_equal.
  induction files as [|file files IH]; [done|].
  rewrite !fmap_cons. cbn [omap list_omap]. by rewrite IH.
Qed.

(** X14. The project file lists the generated top-level file [name.v]
    first and then one design file per extra source file, in order; each of
    these names is the escaped file name with [.v] appended, so every listed
    name ends in [.v] whatever the extension of the source file. *)
Theorem project_lists_design_files (name : string) (self : Platform)
    (files : list string) :
  project_design_files (project_xml name self files) =
    (name +:+ ".v") :: ((λ file, ascii_escape self file +:+ ".v") <$> files)
  ∧ length (project_design_files (project_xml name self files))
    = S (length files)
  ∧ Forall (λ listed_name, ∃ stem, listed_name = stem +:+ ".v")
           (project_design_files (project_xml name self files)).
Proof.
  rewrite project_design_files_rendered. split_and!.
  - done.
  - simpl. by rewrite length_fmap.
  - constructor; [by eexists|]. apply Forall_fmap, Forall_forall.
    intros file _. by eexists.
Qed.

(** X15. The project file, the pin-constraint file (in both places), the
    constraint-conversion command, place-and-route and the programmer all
    name the device as device followed by package; the synthesis command
    names the device without the package. *)
Theorem same_device_everywhere (name : string) (self : Platform)
    (files : list string) (quiet : bool) :
  xml_field "name"
      <$> (blocks "efx:device_info" (project_xml name self files)
             ≫= blocks "efx:device")
    = [Some (device self +:+ package self)]
  ∧ xml_field "device_def" (peri_xml name self)
    = Some (device self +:+ package self)
  ∧ xml_field "device_def" <$> blocks "efxpt:gpio_info" (peri_xml name self)
    = [Some (device self +:+ package self)]
  ∧ last (cmd_args (efx_run_pt_command name self quiet))
    = Some (device self +:+ package self)
  ∧ option_value "--device" (cmd_args (efx_pnr_command name self quiet))
    = Some (device self +:+ package self)
  ∧ option_value "--device" (cmd_args (efx_pgm_command name self quiet))
    = Some (device self +:+ package self)
  ∧ option_value "--device" (cmd_args (efx_map_command name self quiet))
    = Some (device self).
Proof. split_and!; reflexivity. Qed.

Lemma script_name_apart (name suffix : string) :
  suffix ∈ [".xml"; ".peri.xml"; ".v"; ".debug.v"; ".sdc"] →
  name +:+ suffix ≠ "run_platform_tool.py".
Proof.
  rewrite !elem_of_cons, elem_of_nil.
  intros [->|[->|[->|[->|[->|[]]]]]] H.
  all: repeat match type of H with
              | ?s +:+ _ = String _ _ =>
                  destruct s as [|? s];
                  [discriminate H
                  |rewrite string_app_cons in H; injection H as -> H]
              | _ +:+ _ = "" =>
                  apply (f_equal String.length) in H;
                  rewrite string_length_app in H; simpl in H; lia
              end.
Qed.

(** X16. The names of the six files this platform generates are pairwise
    distinct for every design name. *)
Theorem generated_file_names_distinct (autogenerated name : string)
    (self : Platform) (files : list string) (verilog debug_verilog : string) :
  NoDup (file_templates autogenerated name self files verilog debug_verilog).*1.
Proof.
  unfold file_templates. simpl.
  assert (∀ a b : string, a ≠ b → name +:+ a ≠ name +:+ b) as Hsuffix.
  { intros a b Hab Heq. by apply (inj (String.app name)) in Heq. }
  assert (∀ a : string,
            a ∈ [".xml"; ".peri.xml"; ".v"; ".debug.v"; ".sdc"] →
            "run_platform_tool.py" ≠ name +:+ a) as Hscript.
  { intros a Ha Heq. by apply (script_name_apart name a). }
  repeat (apply NoDup_cons; split;
          [rewrite ?elem_of_cons, elem_of_nil; intros Hin|]).
  all: try apply NoDup_nil_2.
  all: repeat (destruct Hin as [Hin|Hin]); try done.
  all: try (revert Hin; apply Hsuffix; done).
  all: symmetry in Hin; revert Hin; apply Hscript; by_evaluation.
Qed.

Lemma suffix_apart (name a b : string) : a ≠ b → name +:+ a ≠ name +:+ b.
Proof. intros Hab Heq. by apply (inj (String.app name)) in Heq. Qed.

(** X17. The file names that the commands and the project file refer to
    are generated files of the right kind: the [--project-xml] of the
    synthesis command is the project file, the first design file of the
    project is the generated source, the [sdc_file] of the project is the
    timing-constraint file, and the script of the constraint-conversion
    command is the wrapper script. *)
Theorem references_resolve (autogenerated name : string) (self : Platform)
    (files : list string) (verilog debug_verilog : string) (quiet : bool) :
  let generated : gmap string Rendered :=
    list_to_map
      (file_templates autogenerated name self files verilog debug_verilog) in
  (option_value "--project-xml" (cmd_args (efx_map_command name self quiet))
     ≫= (generated !!.))
    = Some (rendered_xml (project_xml name self files))
  ∧ (head (project_design_files (project_xml name self files))
       ≫= (generated !!.))
    = Some (rendered_verilog autogenerated verilog)
  ∧ ((blocks "efx:constraint_info" (project_xml name self files)
        ≫= blocks "efx:sdc_file") ≫= (λ x, option_list (xml_field "name" x)))
    = [name +:+ ".sdc"]
  ∧ generated !! (name +:+ ".sdc") = Some (rendered_sdc (sdc_file autogenerated self))
  ∧ (cmd_args (efx_run_pt_command name self quiet) !! 1 ≫= (generated !!.))
    = Some (rendered_script run_platform_tool).
Proof.
  intros generated. subst generated. unfold file_templates.
  rewrite project_design_files_rendered. simpl.
  split_and!.
  - by rewrite lookup_insert_eq.
  - rewrite !lookup_insert_ne by (by apply suffix_apart).
    by rewrite lookup_insert_eq.
  - done.
  - rewrite !lookup_insert_ne by (by apply suffix_apart).
    by rewrite lookup_insert_eq.
  - rewrite !lookup_insert_ne by (apply script_name_apart; by_evaluation).
    by rewrite lookup_insert_eq.
Qed.

(** X18. The tools the commands start through [invoke_tool] are exactly
    the [required_tools], in the same order, for every design and platform;
    and every command redirects its output exactly when [quiet] is set. *)
Theorem invoked_tools_are_required (name : string) (self : Platform) (quiet : bool) :
  invoked_tools (command_templates name self quiet) = required_tools
  ∧ Forall (λ c, cmd_to_NUL c = quiet) (command_templates name self quiet).
Proof. split; [reflexivity|]. by repeat constructor. Qed.

(** ** More on the wrapper script *)

(** X19. How the wrapper script fails. Without [EFINITY_HOME] it raises
    [KeyError], and when no interpreter directory matches it raises
    [IndexError]; in both cases it has allocated nothing. Without a script
    argument it raises [IndexError] after the environment was built. It
    reaches [subprocess.run] exactly when [EFINITY_HOME] is set, an
    interpreter directory matches and there is a script argument. *)
Theorem wrapper_failures (os : OsModule) (sys_argv : list string) (h : Heap)
    (E : Env) :
  h !! os_environ = Some E →
  (E !! "EFINITY_HOME" = None →
     run_platform_tool os sys_argv h = (inl (KeyError "EFINITY_HOME"), h))
  ∧ (∀ home, E !! "EFINITY_HOME" = Some home →
       glob_glob os (path_join os [home; "python*"]) = [] →
       run_platform_tool os sys_argv h = (inl IndexError, h))
  ∧ (∀ home pyhome others, E !! "EFINITY_HOME" = Some home →
       glob_glob os (path_join os [home; "python*"]) = pyhome :: others →
       (length sys_argv < 2)%nat →
       run_platform_tool os sys_argv h =
         (inl IndexError, h ++ [target_env_of os home pyhome E]))
  ∧ (is_Some (E !! "EFINITY_HOME" ≫= λ home,
                head (glob_glob os (path_join os [home; "python*"])))
     ∧ (2 ≤ length sys_argv)%nat ↔
     ∃ spawn, (run_platform_tool os sys_argv h).1 = inr spawn).
Proof.
  intros HE. rewrite run_platform_tool_outcome, HE. split_and!.
  - by intros ->.
  - by intros home -> ->.
  - intros home pyhome others -> -> Hargv. simpl.
    by rewrite (proj2 (lookup_ge_None sys_argv 1)) by lia.
  - destruct (E !! "EFINITY_HOME") as [home|]; simpl.
    2: { split; [by intros [[? [=]] _]|by intros [? [=]]]. }
    rewrite <- head_lookup.
    destruct (head (glob_glob os (path_join os [home; "python*"])))
      as [pyhome|]; simpl.
    2: { split; [by intros [[? [=]] _]|by intros [? [=]]]. }
    destruct (sys_argv !! 1) as [script|] eqn:Hargv; simpl.
    + apply lookup_lt_Some in Hargv. split; [by eexists|]. intros _.
      split; [by eexists|lia].
    + apply lookup_ge_None in Hargv. split; [lia|]. by intros [? [=]].
Qed.

Lemma wrapper_failures_witness :
  run_platform_tool ex_os ["run_platform_tool.py"; "scripts/efx_run_pt.py"]
      [{[ "PATH" := "/usr/bin" ]}]
  = (inl (KeyError "EFINITY_HOME"), [{[ "PATH" := "/usr/bin" ]}]).
Proof.
  apply (wrapper_failures ex_os
           ["run_platform_tool.py"; "scripts/efx_run_pt.py"]
           [{[ "PATH" := "/usr/bin" ]}] {[ "PATH" := "/usr/bin" ]});
    reflexivity.
Defined.

Lemma run_platform_tool_spawned (os : OsModule) (sys_argv : list string)
    (h : Heap) (E : Env) (spawn : Spawn) :
  h !! os_environ = Some E →
  (run_platform_tool os sys_argv h).1 = inr spawn →
  ∃ home pyhome script,
    E !! "EFINITY_HOME" = Some home
    ∧ head (glob_glob os (path_join os [home; "python*"])) = Some pyhome
    ∧ sys_argv !! 1 = Some script
    ∧ spawn = {| spawn_args :=
                   [path_join os [pyhome; "bin"; "python"];
                    path_join os [home; script]] ++ drop 2 sys_argv;
                 spawn_env := target_env_of os home pyhome E |}.
Proof.
  intros HE. rewrite run_platform_tool_outcome, HE.
  destruct (E !! "EFINITY_HOME") as [home|] eqn:Hhome; [|done].
  rewrite <- head_lookup.
  destruct (head _) as [pyhome|] eqn:Hpy; [|done].
  destruct (sys_argv !! 1) as [script|] eqn:Hscript; [|done].
  simpl. intros [= <-]. by exists home, pyhome, script.
Qed.

(** X20. The environment of the child process, variable by variable: every
    variable other than the four overridden ones has the value it has in
    [os.environ], [EFINITY_HOME] included; the three tool homes are the
    sub-directories [pt], [pgm] and [debugger] of [EFINITY_HOME];
    [PYTHONHOME] is the first match of the interpreter pattern, whatever
    [os.environ] had for it; and no other variable is added. *)
Theorem child_environment (os : OsModule) (sys_argv : list string) (h : Heap)
    (E : Env) (spawn : Spawn) :
  h !! os_environ = Some E →
  (run_platform_tool os sys_argv h).1 = inr spawn →
  (∀ key, key ∉ ["PYTHONHOME"; "EFXPT_HOME"; "EFXPGM_HOME"; "EFXDBG_HOME"] →
          spawn_env spawn !! key = E !! key)
  ∧ (∃ home, spawn_env spawn !! "EFINITY_HOME" = Some home
       ∧ spawn_env spawn !! "EFXPT_HOME" = Some (path_join os [home; "pt"])
       ∧ spawn_env spawn !! "EFXPGM_HOME" = Some (path_join os [home; "pgm"])
       ∧ spawn_env spawn !! "EFXDBG_HOME" = Some (path_join os [home; "debugger"])
       ∧ spawn_env spawn !! "PYTHONHOME" =
           head (glob_glob os (path_join os [home; "python*"])))
  ∧ dom (spawn_env spawn) =
      dom E ∪ {["PYTHONHOME"; "EFXPT_HOME"; "EFXPGM_HOME"; "EFXDBG_HOME"]}.
Proof.
  intros HE Hrun.
  destruct (run_platform_tool_spawned os sys_argv h E spawn HE Hrun)
    as (home & pyhome & script & Hhome & Hpy & _ & ->).
  unfold target_env_of. simpl. split_and!.
  - intros key Hkey. rewrite !elem_of_cons, elem_of_nil in Hkey.
    rewrite !lookup_insert_ne by (intros <-; tauto). done.
  - exists home. rewrite Hpy. split_and!.
    + by rewrite !lookup_insert_ne by done.
    + rewrite !lookup_insert_ne by done. by rewrite lookup_insert_eq.
    + rewrite !lookup_insert_ne by done. by rewrite lookup_insert_eq.
    + by rewrite lookup_insert_eq.
    + rewrite !lookup_insert_ne by done. by rewrite lookup_insert_eq.
  - rewrite !dom_insert_L. apply set_eq. intros key.
    rewrite !elem_of_union, !elem_of_singleton. tauto.
Qed.

Lemma child_environment_witness :
  target_env_of ex_os "/opt/efinity" "/opt/efinity/python38" ex_environ !! "PATH"
  = ex_environ !! "PATH".
Proof.
  apply (proj1 (child_environment ex_os
                  ["run_platform_tool.py"; "scripts/efx_run_pt.py"]
                  [ex_environ] ex_environ
                  {| spawn_args := ["/opt/efinity/python38/bin/python";
                                    "/opt/efinity/scripts/efx_run_pt.py"];
                     spawn_env := target_env_of ex_os "/opt/efinity"
                                    "/opt/efinity/python38" ex_environ |}
                  eq_refl eq_refl) "PATH").
  by_evaluation.
Defined.

(** X21. Started with the command line of [run_efinity_platform_tool], the
    wrapper script runs the interpreter of the installation on the first
    argument, resolved under [EFINITY_HOME], with the remaining arguments
    unchanged; with no argument at all it raises [IndexError]. *)
Theorem helper_passes_arguments (os : OsModule) (executable helper_script : string)
    (args : list string) (h : Heap) (E : Env) (home pyhome : string) :
  h !! os_environ = Some E →
  E !! "EFINITY_HOME" = Some home →
  head (glob_glob os (path_join os [home; "python*"])) = Some pyhome →
  (run_platform_tool os
     (sys_argv_of (run_efinity_platform_tool executable helper_script args)) h).1
  = match args with
    | script :: rest =>
        inr {| spawn_args :=
                 [path_join os [pyhome; "bin"; "python"];
                  path_join os [home; script]] ++ rest;
               spawn_env := target_env_of os home pyhome E |}
    | [] => inl IndexError
    end.
Proof.
  intros HE Hhome Hpy. rewrite head_lookup in Hpy.
  rewrite run_platform_tool_outcome, HE, Hhome, Hpy.
  unfold sys_argv_of, run_efinity_platform_tool. simpl.
  by destruct args as [|script rest].
Qed.

Lemma helper_passes_arguments_witness :
  (run_platform_tool ex_os
     (sys_argv_of (run_efinity_platform_tool "/usr/bin/python3"
                     "/tmp/run_platform_tool.py" ["scripts/efx_run_pt.py"; "top"]))
     [ex_environ]).1
  = inr {| spawn_args := ["/opt/efinity/python38/bin/python";
                          "/opt/efinity/scripts/efx_run_pt.py"; "top"];
           spawn_env := target_env_of ex_os "/opt/efinity"
                          "/opt/efinity/python38" ex_environ |}.
Proof.
  apply (helper_passes_arguments ex_os "/usr/bin/python3"
           "/tmp/run_platform_tool.py" ["scripts/efx_run_pt.py"; "top"]
           [ex_environ] ex_environ "/opt/efinity" "/opt/efinity/python38");
    reflexivity.
Defined.

(** X22. The constraint-conversion command is the command line that
    [run_efinity_platform_tool] builds for the script
    [scripts/efx_run_pt.py], and it makes the wrapper script run that script
    of the installation with the design name, the family and the device with
    its package as arguments. *)
Theorem conversion_step_invocation (os : OsModule) (executable name : string)
    (self : Platform) (quiet : bool) (h : Heap) (E : Env) (home pyhome : string) :
  h !! os_environ = Some E →
  E !! "EFINITY_HOME" = Some home →
  head (glob_glob os (path_join os [home; "python*"])) = Some pyhome →
  executable :: cmd_args (efx_run_pt_command name self quiet)
    = run_efinity_platform_tool executable "run_platform_tool.py"
        ["scripts/efx_run_pt.py"; name; family self; device self +:+ package self]
  ∧ (run_platform_tool os
       (sys_argv_of (executable :: cmd_args (efx_run_pt_command name self quiet)))
       h).1
    = inr {| spawn_args :=
               [path_join os [pyhome; "bin"; "python"];
                path_join os [home; "scripts/efx_run_pt.py"];
                name; family self; device self +:+ package self];
             spawn_env := target_env_of os home pyhome E |}.
Proof.
  intros HE Hhome Hpy. split; [done|]. rewrite head_lookup in Hpy.
  by rewrite run_platform_tool_outcome, HE, Hhome, Hpy.
Qed.

Lemma conversion_step_invocation_witness :
  (run_platform_tool ex_os
     (sys_argv_of ("/usr/bin/python3"
                     :: cmd_args (efx_run_pt_command "top" (ex_platform None []) false)))
     [ex_environ]).1
  = inr {| spawn_args :=
             ["/opt/efinity/python38/bin/python";
              "/opt/efinity/scripts/efx_run_pt.py"; "top"; "Trion"; "T8F81"];
           spawn_env := target_env_of ex_os "/opt/efinity"
                          "/opt/efinity/python38" ex_environ |}.
Proof.
  apply (conversion_step_invocation ex_os "/usr/bin/python3" "top"
           (ex_platform None []) false [ex_environ] ex_environ
           "/opt/efinity" "/opt/efinity/python38"); reflexivity.
Defined.

(** X23. The wrapper script exits with status 0 exactly when it reached
    [subprocess.run] and the child could be started: the return code of the
    child plays no part, so a failing tool is not reported by the exit
    status of the wrapper. *)
Theorem wrapper_exit_status (os : OsModule) (subprocess_run : Spawn → Res Z)
    (sys_argv : list string) (h : Heap) :
  exit_status (run_platform_tool_script os subprocess_run sys_argv h) = 0%Z ↔
  ∃ spawn return_code,
    (run_platform_tool os sys_argv h).1 = inr spawn
    ∧ subprocess_run spawn = inr return_code.
Proof.
  unfold run_platform_tool_script, exit_status.
  rewrite py_bind_unfold.
  destruct (run_platform_tool os sys_argv h) as [[e|spawn] h1]; simpl.
  - split; [done|]. by intros (? & ? & [=] & _).
  - rewrite py_bind_unfold.
    destruct (subprocess_run spawn) as [e|return_code] eqn:Hrun; simpl.
    + split; [done|]. intros (? & ? & [= <-] & Hrc). congruence.
    + split; [|done]. intros _. by exists spawn, return_code.
Qed.

(** ** More on the clock-domain fallback *)

Lemma create_missing_domain_sync (self : Platform) (clk : string) :
  default_clk self = Some clk →
  create_missing_domain self "sync" =
    (clk_i ←
       (if decide (clk = "oscint" ∧ device self ∈ ["T4"; "T8"])
        then inl NotImplementedError
        else request self clk);
     rst_i ←
       match default_rst self with
       | Some rst => Some <$> request self rst
       | None => inr None
       end;
     inr (Some {| clk_i := clk_i; rst_i := rst_i |})).
Proof.
  intros Hclk. unfold create_missing_domain.
  rewrite decide_True by done. by rewrite Hclk.
Qed.

(** X24. [create_missing_domain] returns [None] exactly when the domain
    asked for is not ["sync"] or the platform has no default clock. *)
Theorem no_domain_created (self : Platform) (name : string) :
  create_missing_domain self name = inr None ↔
  name ≠ "sync" ∨ default_clk self = None.
Proof.
  unfold create_missing_domain.
  destruct (decide (name = "sync")) as [->|Hname]; [|by split; [left|]].
  destruct (default_clk self) as [clk|]; [|by split; [right|]].
  split; [|by intros [?|?]].
  case_decide; [done|]. simpl.
  destruct (request self clk) as [e|c]; [done|]. simpl.
  destruct (default_rst self) as [rst|]; [|done]. simpl.
  by destruct (request self rst).
Qed.

(** X25. When requesting a resource never raises [NotImplementedError],
    [create_missing_domain] raises it only for the domain ["sync"] on a
    platform with default clock ["oscint"] and device ["T4"] or ["T8"]. *)
Theorem not_implemented_only_for_oscint (self : Platform) (name : string) :
  (∀ resource, request self resource ≠ inl NotImplementedError) →
  create_missing_domain self name = inl NotImplementedError →
  name = "sync" ∧ default_clk self = Some "oscint"
  ∧ (device self = "T4" ∨ device self = "T8").
Proof.
  intros Hrequest. unfold create_missing_domain.
  destruct (decide (name = "sync")) as [->|Hname]; [|done].
  destruct (default_clk self) as [clk|]; [|done].
  case_decide as Hosc.
  - destruct Hosc as [-> Hdev]. rewrite elem_of_list2 in Hdev. done.
  - simpl. destruct (request self clk) as [e|c] eqn:Hclk.
    + simpl. intros [= ->]. by apply Hrequest in Hclk.
    + simpl. destruct (default_rst self) as [rst|]; [|done]. simpl.
      destruct (request self rst) as [e|r] eqn:Hrst; [|done].
      simpl. intros [= ->]. by apply Hrequest in Hrst.
Qed.

Lemma not_implemented_only_for_oscint_witness :
  "sync" = "sync"
  ∧ default_clk (ex_platform (Some "oscint") []) = Some "oscint"
  ∧ (device (ex_platform (Some "oscint") []) = "T4"
     ∨ device (ex_platform (Some "oscint") []) = "T8").
Proof.
  apply (not_implemented_only_for_oscint (ex_platform (Some "oscint") []) "sync").
  - intros resource. discriminate.
  - reflexivity.
Defined.

(** X26. For the domain ["sync"] on a platform with a default clock that
    is not the internal oscillator of a T4 or T8 (on any other device
    ["oscint"] is requested like any resource), the clock is requested
    first and its exception, if any, is the result; then the default reset,
    if the platform has one; the module returned is clocked by the requested
    clock and reset by the requested reset, or by constant 0. *)
Theorem domain_from_requests (self : Platform) (clk : string) :
  default_clk self = Some clk →
  ¬ (clk = "oscint" ∧ device self ∈ ["T4"; "T8"]) →
  create_missing_domain self "sync" =
    match request self clk, default_rst self with
    | inl e, _ => inl e
    | inr clk_i, None => inr (Some {| clk_i := clk_i; rst_i := None |})
    | inr clk_i, Some rst =>
        match request self rst with
        | inl e => inl e
        | inr rst_i => inr (Some {| clk_i := clk_i; rst_i := Some rst_i |})
        end
    end.
Proof.
  intros Hclk Hosc. rewrite (create_missing_domain_sync self clk Hclk).
  rewrite decide_False by done.
  destruct (request self clk) as [e|c]; [by destruct (default_rst self)|].
  simpl. destruct (default_rst self) as [rst|]; [|done]. simpl.
  by destruct (request self rst).
Qed.

Lemma domain_from_requests_witness :
  create_missing_domain (ex_platform (Some "clk12") []) "sync" =
    inr (Some {| clk_i := "clk12"; rst_i := None |}).
Proof.
  apply (domain_from_requests (ex_platform (Some "clk12") []) "clk12").
  - reflexivity.
  - intros [[=] _].
Defined.
